(** * ThinkBot_AL: the AI Avatar front end and its talking-head proxy

    A shallow embedding of [src/App.tsx]: the React component [App] (state,
    event handlers, the parts of the render that enable or disable controls)
    and the Express handler of [POST /api/talk] that follows it in the same
    file.

    Conventions.
    - A JavaScript string is a [string]; its characters are the code units
      below 256.  [trim] and [toLowerCase] are written for that range.
    - A value whose TypeScript type is not enforced at run time (the result of
      [JSON.parse], a request body) is a [JValue].
    - An event handler is a function from the values its closure captured at
      render time to the list of effects it performs, in program order
      ([Effect]); [exec] applies one effect to the [World].  An [await] ends
      the list with the request and the closure of the continuation.
    - Object-literal tables are finite maps over their own keys.
    - [JSON.parse] is a platform function: the component is developed in a
      section over it.

    The entry file of the repository holds an earlier copy of the component,
    the same but for [speak], which there takes no gender; the copy in
    [App.tsx] is the one embedded here. *)

From Stdlib Require Import PrimFloat ZArith Lia Ascii String.
From stdpp Require Import base option list strings gmap.

Set Warnings "-register-all".
Open Scope nat_scope.

(** ** Strings *)

Module Str.

(** WhiteSpace and LineTerminator code units below 256: TAB, LF, VT, FF, CR,
    SP and NBSP. *)
Definition is_ws (c : ascii) : bool :=
  let n := nat_of_ascii c in
  ((9 <=? n) && (n <=? 13)) || (n =? 32) || (n =? 160).

Fixpoint trimStart (s : string) : string :=
  match s with
  | EmptyString => EmptyString
  | String c s' => if is_ws c then trimStart s' else s
  end.

Definition is_empty (s : string) : bool :=
  match s with EmptyString => true | _ => false end.

Fixpoint trimEnd (s : string) : string :=
  match s with
  | EmptyString => EmptyString
  | String c s' =>
      let t := trimEnd s' in
      if is_ws c && is_empty t then EmptyString else String c t
  end.

(** [s.trim()] *)
Definition trim (s : string) : string := trimEnd (trimStart s).

Definition lower_char (c : ascii) : ascii :=
  let n := nat_of_ascii c in
  if ((65 <=? n) && (n <=? 90))
     || ((192 <=? n) && (n <=? 222) && negb (n =? 215))
  then ascii_of_nat (n + 32) else c.

(** [s.toLowerCase()] *)
Fixpoint toLowerCase (s : string) : string :=
  match s with
  | EmptyString => EmptyString
  | String c s' => String (lower_char c) (toLowerCase s')
  end.

(** [s.startsWith(p)] *)
Fixpoint startsWith (s p : string) : bool :=
  match p, s with
  | EmptyString, _ => true
  | String _ _, EmptyString => false
  | String a p', String b s' => Ascii.eqb a b && startsWith s' p'
  end.

(** [s.includes(sub)] *)
Fixpoint includes (s sub : string) : bool :=
  startsWith s sub ||
  match s with
  | EmptyString => false
  | String _ s' => includes s' sub
  end.

(** [s.split(sep)] for a one-character separator. *)
Fixpoint split (s : string) (sep : ascii) : list string :=
  match s with
  | EmptyString => [EmptyString]
  | String c s' =>
      if Ascii.eqb c sep then EmptyString :: split s' sep
      else match split s' sep with
           | h :: t => String c h :: t
           | [] => [String c EmptyString]
           end
  end.

(** [s.slice(b, e)]: negative indices count from the end, both are clamped. *)
Definition slice (s : string) (b e : Z) : string :=
  let n := Z.of_nat (String.length s) in
  let from := if (b <? 0)%Z then Z.max (n + b) 0 else Z.min b n in
  let to := if (e <? 0)%Z then Z.max (n + e) 0 else Z.min e n in
  substring (Z.to_nat from) (Z.to_nat (to - from)) s.

(** Truthiness of a string: non-empty. *)
Definition truthy (s : string) : bool := negb (is_empty s).

(** A prompt is blank when every character is white space. *)
Fixpoint blank (s : string) : bool :=
  match s with
  | EmptyString => true
  | String c s' => is_ws c && blank s'
  end.

(** The double quote and the line feed, for template literals. *)
Definition dq : string := String (ascii_of_nat 34) EmptyString.
Definition nl : string := String (ascii_of_nat 10) EmptyString.

End Str.

(** ** Run-time values *)

Inductive JValue : Type :=
| JUndefined
| JNull
| JBool (b : bool)
| JNum (x : float)
| JStr (s : string)
| JArr (items : list JValue)
| JObj (fields : gmap string JValue).

Module JS.

(** ToBoolean *)
Definition truthy (v : JValue) : bool :=
  match v with
  | JUndefined | JNull => false
  | JBool b => b
  | JNum x => negb (PrimFloat.is_zero x || PrimFloat.is_nan x)
  | JStr s => Str.truthy s
  | JArr _ | JObj _ => true
  end.

(** [v[k]] for a key [k] that no prototype defines: [None] is the TypeError
    raised on [undefined] and [null]. *)
Definition get (v : JValue) (k : string) : option JValue :=
  match v with
  | JUndefined | JNull => None
  | JObj m => Some (default JUndefined (m !! k))
  | _ => Some JUndefined
  end.

(** An [undefined] string printed by a template literal. *)
Definition tpl (o : option string) : string := default "undefined" o.

End JS.

(** ** The role tables *)

Inductive Gender : Type := male | female | neutral.

Definition gender_word (g : Gender) : string :=
  match g with male => "male" | female => "female" | neutral => "neutral" end.

Definition roleToGender : gmap string Gender :=
  list_to_map
    [ ("king", male); ("policeman", male); ("police", male);
      ("police officer", male); ("farmer", male); ("doctor", male);
      ("prince", male); ("emperor", male); ("pirate", male);
      ("knight", male); ("wizard", male); ("detective", male);
      ("man", male); ("boy", male);
      ("queen", female); ("policewoman", female); ("teacher", female);
      ("dancer", female); ("singer", female); ("princess", female);
      ("empress", female); ("witch", female); ("actress", female);
      ("woman", female); ("girl", female) ].

Definition roleVoices : gmap string string :=
  list_to_map
    [ ("king", "male_deep_indian"); ("police", "male_strict");
      ("farmer", "male_simple"); ("doctor", "male_doctor");
      ("queen", "female_royal"); ("teacher", "female_teacher");
      ("dancer", "female_excited"); ("singer", "female_singer") ].

(** [roleToGender[currentRole.toLowerCase().trim()] || 'neutral'] *)
Definition gender_of_role (currentRole : string) : Gender :=
  let normalizedRole := Str.trim (Str.toLowerCase currentRole) in
  default neutral (roleToGender !! normalizedRole).

(** ** Speech output *)

Record Voice : Type := {
  v_name : string;
  v_lang : string;
  v_default : bool;
  v_localService : bool
}.

(** The utterance handed to [speechSynthesis.speak]: the constructor argument,
    the value assigned to [lang], and the voice when one was assigned. *)
Record Utterance : Type := {
  u_text : JValue;
  u_lang : JValue;
  u_voice : option Voice
}.

(** [a || b] on possibly-undefined voices. *)
Definition or_else {A} (a b : option A) : option A :=
  match a with Some _ => a | None => b end.

(** The predicate of [voices.filter] in [speak]. *)
Definition lang_matches (lang : string) (v : Voice) : bool :=
  String.eqb (v_lang v) lang
  || Str.startsWith (v_lang v) (default "" (head (Str.split lang "-"))).

(** [voices.filter(v => v.lang === lang || v.lang.startsWith(lang.split('-')[0]))].
    When [lang] is not a string the comparison fails and [lang.split] raises
    a TypeError at the first voice; [None] is that exception. *)
Definition langVoices_of (voices : list Voice) (lang : JValue)
  : option (list Voice) :=
  match lang with
  | JStr l => Some (List.filter (lang_matches l) voices)
  | _ => match voices with [] => Some [] | _ :: _ => None end
  end.

Definition gender_matches (gender : Gender) (v : Voice) : bool :=
  Str.includes (Str.toLowerCase (v_name v)) (gender_word gender).

(** Step 2 of [speak]: a voice for the gender, remote if there is one. *)
Definition by_gender (langVoices : list Voice) (gender : Gender)
  : option Voice :=
  match gender with
  | male | female =>
      let genderVoices := List.filter (gender_matches gender) langVoices in
      match genderVoices with
      | [] => None
      | _ :: _ =>
          or_else (List.find (fun v => negb (v_localService v)) genderVoices)
                  (head genderVoices)
      end
  | neutral => None
  end.

(** Step 3 of [speak]: the default voice, else a remote one, else the first. *)
Definition by_default (langVoices : list Voice) : option Voice :=
  or_else (List.find v_default langVoices)
    (or_else (List.find (fun v => negb (v_localService v)) langVoices)
             (head langVoices)).

(** Steps 2 and 3 of [speak], for a non-empty [langVoices]. *)
Definition select_voice (langVoices : list Voice) (gender : Gender)
  : option Voice :=
  or_else (by_gender langVoices gender) (by_default langVoices).

(** The voice assigned to the utterance: none when no installed voice has the
    language (the branch that only warns on the console). *)
Definition voice_for (langVoices : list Voice) (gender : Gender)
  : option Voice :=
  match langVoices with
  | [] => None
  | _ :: _ => select_voice langVoices gender
  end.

(** ** The component state and its environment *)

(** [originalImage]: [base64] is [undefined] when the data URL had no comma. *)
Record EncodedImage : Type := {
  base64 : option string;
  mimeType : string
}.

(** The selected file; the handler reads [file.type] only. *)
Record File : Type := { file_type : string }.

(** The response of [ai.models.generateContent], as far as the handler looks
    into it.  [None] is a member that is [undefined]. *)
Record InlineData : Type := {
  id_data : option string;
  id_mimeType : option string
}.
Record Part : Type := { inlineData : option InlineData }.
Record Content : Type := { parts : option (list Part) }.
Record Candidate : Type := { content : option Content }.
Record GenerateContentResponse : Type := {
  candidates : option (list Candidate);
  text : option string
}.

(** How the awaited promise settles. *)
Inductive Outcome : Type :=
| Rejected
| Resolved (response : GenerateContentResponse).

(** The two calls of [generateContent]. *)
Inductive Request : Type :=
| ImageTransform (image : EncodedImage) (instruction : string)
| ChatTurn (systemInstruction contents : string).

Definition model_of (req : Request) : string :=
  match req with
  | ImageTransform _ _ => "gemini-2.5-flash-image-preview"
  | ChatTurn _ _ => "gemini-2.5-flash"
  end.

(** What the code after an [await] still reads from its closure. *)
Inductive Continuation : Type :=
| AfterTransform (currentPrompt : string)
| AfterChat (currentPrompt : string) (gender : Gender) (voices : list Voice).

(** State setters and platform calls, as the handlers issue them. *)
Inductive Effect : Type :=
| setOriginalImage (imageState : EncodedImage)
| setDisplayImage (url : string)
| setPrompt (s : string)
| setCurrentRole (role : option string)
| setIsLoading (b : bool)
| setError (e : option string)
| setVoices (vs : list Voice)
| synthCancel
| synthSpeak (utterance : Utterance)
| generateContent (req : Request) (k : Continuation)
| readAsDataURL (file : File).

Record World : Type := {
  (* React state of [App] *)
  originalImage : option EncodedImage;
  displayImage : option string;
  prompt : string;
  currentRole : option string;
  isLoading : bool;
  error : option string;
  voices : list Voice;
  (* [window.speechSynthesis]: the utterances queued and not yet spoken *)
  synth : list Utterance;
  (* requests awaiting their response, each with its continuation *)
  inflight : list (Request * Continuation);
  (* file readers still reading *)
  readers : list File;
  (* every request issued so far, oldest first *)
  sent : list Request
}.

Definition exec (w : World) (e : Effect) : World :=
  let '(Build_World oi di p cr il er vs sy fl rd se) := w in
  match e with
  | setOriginalImage v => Build_World (Some v) di p cr il er vs sy fl rd se
  | setDisplayImage v => Build_World oi (Some v) p cr il er vs sy fl rd se
  | setPrompt v => Build_World oi di v cr il er vs sy fl rd se
  | setCurrentRole v => Build_World oi di p v il er vs sy fl rd se
  | setIsLoading v => Build_World oi di p cr v er vs sy fl rd se
  | setError v => Build_World oi di p cr il v vs sy fl rd se
  | setVoices v => Build_World oi di p cr il er v sy fl rd se
  | synthCancel => Build_World oi di p cr il er vs [] fl rd se
  | synthSpeak u => Build_World oi di p cr il er vs (sy ++ [u]) fl rd se
  | generateContent req k =>
      Build_World oi di p cr il er vs sy (fl ++ [(req, k)]) rd (se ++ [req])
  | readAsDataURL f => Build_World oi di p cr il er vs sy fl (rd ++ [f]) se
  end.

Definition exec_all (es : list Effect) (w : World) : World :=
  fold_left exec es w.

(** The state after mount, before the first [voiceschanged]. *)
Definition init : World :=
  {| originalImage := None; displayImage := None; prompt := "";
     currentRole := None; isLoading := false; error := None; voices := [];
     synth := []; inflight := []; readers := []; sent := [] |}.

(** ** The handlers *)

Inductive Completion : Type := Normal | Thrown.

(** [speak(text, lang, gender)], with the [voices] of its render. *)
Definition speak (vs : list Voice) (text lang : JValue) (gender : Gender)
  : list Effect * Completion :=
  match langVoices_of vs lang with
  | None => ([synthCancel], Thrown)
  | Some langVoices =>
      ([synthCancel;
        synthSpeak {| u_text := text; u_lang := lang;
                      u_voice := voice_for langVoices gender |}],
       Normal)
  end.

Definition dataURL (mime : string) (data : option string) : string :=
  "data:" +:+ mime +:+ ";base64," +:+ JS.tpl data.

Definition handleImageChange (file : option File) : list Effect :=
  match file with
  | None => []
  | Some f => [setError None; setCurrentRole None; setPrompt ""; readAsDataURL f]
  end.

(** [reader.onloadend]; [result] is [None] after a failed read, and the cast
    [(reader.result as string).split] then raises. *)
Definition onloadend (f : File) (result : option string) : list Effect :=
  match result with
  | None => []
  | Some r =>
      let base64String := Str.split r "," !! 1 in
      let imageState := {| base64 := base64String; mimeType := file_type f |} in
      [setOriginalImage imageState;
       setDisplayImage (dataURL (file_type f) base64String)]
  end.

Definition onerror : list Effect :=
  [setError (Some "Failed to read the image file.")].

Definition handleRoleReset (r : World) : list Effect :=
  [setCurrentRole None; setError None] ++
  match originalImage r with
  | Some img => [setDisplayImage (dataURL (mimeType img) (base64 img))]
  | None => []
  end.

Definition transform_instruction (currentPrompt : string) : string :=
  "Transform the person in the photo to embody the role of: " +:+ Str.dq
  +:+ currentPrompt +:+ Str.dq
  +:+ ". Change their clothes, accessories, and background to match the role. Do not add any text or speech bubbles. Only output the transformed image.".

Definition chat_instruction (role : string) : string :=
  "You are an AI Avatar. Your current role is " +:+ Str.dq +:+ role +:+ Str.dq
  +:+ "." +:+ Str.nl
  +:+ "You must follow these rules:" +:+ Str.nl
  +:+ "1. Stay fully in character for the role of " +:+ Str.dq +:+ role
  +:+ Str.dq +:+ "." +:+ Str.nl
  +:+ "2. Always reply in the same language the user speaks (e.g., Hindi or English)."
  +:+ Str.nl
  +:+ "3. Your response will be spoken, so it should be conversational.".

(** [!currentRole] *)
Definition no_role (role : option string) : bool :=
  match role with
  | None => true
  | Some s => negb (Str.truthy s)
  end.

(** The guard of [handleSubmit]: [!prompt.trim() || !originalImage]. *)
Definition guard_fails (r : World) : bool :=
  negb (Str.truthy (Str.trim (prompt r)))
  || match originalImage r with None => true | Some _ => false end.

Definition generic_error : string :=
  "An error occurred while generating the response. Please try again.".

(** The outer [catch]. *)
Definition catch_all (currentPrompt : string) : list Effect :=
  [setError (Some generic_error); setPrompt currentPrompt].

(** [handleSubmit] up to its [await], from the values of its render [r].
    Reading [originalImage.base64] of [null] would raise inside the [try];
    the guard excludes it. *)
Definition handleSubmit (r : World) : list Effect :=
  if guard_fails r then
    [setError (Some "Please provide a role or a message.")]
  else
    let currentPrompt := prompt r in
    let transform :=
      match originalImage r with
      | Some img =>
          [generateContent
             (ImageTransform img (transform_instruction currentPrompt))
             (AfterTransform currentPrompt)]
      | None => catch_all currentPrompt ++ [setIsLoading false]
      end in
    [setIsLoading true; setError None; setPrompt ""] ++
    match currentRole r with
    | None => transform
    | Some role =>
        if no_role (currentRole r) then transform
        else
          [generateContent
             (ChatTurn (chat_instruction role) currentPrompt)
             (AfterChat currentPrompt (gender_of_role role) (voices r))]
    end.

(** [response.candidates[0]?.content?.parts[0]]: the outer [None] is the
    TypeError of indexing [undefined]. *)
Definition first_part (response : GenerateContentResponse)
  : option (option Part) :=
  match candidates response with
  | None => None
  | Some cs =>
      match head cs with
      | None => Some None
      | Some c =>
          match content c with
          | None => Some None
          | Some ct =>
              match parts ct with
              | None => None
              | Some ps => Some (head ps)
              end
          end
      end
  end.

Definition after_transform (currentPrompt : string) (o : Outcome)
  : list Effect :=
  match o with
  | Rejected => catch_all currentPrompt
  | Resolved response =>
      match first_part response with
      | None => catch_all currentPrompt
      | Some part =>
          match part ≫= inlineData with
          | Some d =>
              [setDisplayImage (dataURL (JS.tpl (id_mimeType d)) (id_data d));
               setCurrentRole (Some currentPrompt)]
          | None =>
              [setError (Some "Failed to transform the image. Please try a different role.");
               setPrompt currentPrompt]
          end
      end
  end.

(** [responseText.startsWith('```json') ? responseText.slice(7, -3).trim()
    : responseText] *)
Definition jsonString_of (responseText : string) : string :=
  if Str.startsWith responseText "```json"
  then Str.trim (Str.slice responseText 7 (-3))
  else responseText.

Section App.

(** [JSON.parse]: [None] is the SyntaxError. *)
Variable JSON_parse : string -> option JValue.

(** The inner [catch]: the fallback for a response that is not JSON. *)
Definition catch_parse (currentPrompt responseText : string)
    (gender : Gender) (vs : list Voice) : list Effect :=
  if Str.truthy responseText then
    match speak vs (JStr responseText) (JStr "en-US") gender with
    | (es, Normal) => es
    | (es, Thrown) => es ++ catch_all currentPrompt
    end
  else
    [setError (Some "I'm sorry, I received an invalid response.");
     setPrompt currentPrompt].

(** [const { language, response: textResponse } = JSON.parse(jsonString)]:
    [None] when the parse or the destructuring raises. *)
Definition reply_of (responseText : string) : option (JValue * JValue) :=
  v ← JSON_parse (jsonString_of responseText);
  language ← JS.get v "language";
  textResponse ← JS.get v "response";
  Some (language, textResponse).

Definition after_chat (currentPrompt : string) (gender : Gender)
    (vs : list Voice) (o : Outcome) : list Effect :=
  match o with
  | Rejected => catch_all currentPrompt
  | Resolved response =>
      match text response with
      | None => catch_all currentPrompt
      | Some t =>
          let responseText := Str.trim t in
          let fallback := catch_parse currentPrompt responseText gender vs in
          match reply_of responseText with
          | None => fallback
          | Some (language, textResponse) =>
              if JS.truthy textResponse then
                match speak vs textResponse language gender with
                | (es, Normal) => es
                | (es, Thrown) => es ++ fallback
                end
              else
                [setError (Some "I'm sorry, I couldn't think of a response.");
                 setPrompt currentPrompt]
          end
      end
  end.

(** [handleSubmit] after its [await]; the [finally] comes last. *)
Definition resume (k : Continuation) (o : Outcome) : list Effect :=
  match k with
  | AfterTransform currentPrompt => after_transform currentPrompt o
  | AfterChat currentPrompt gender vs => after_chat currentPrompt gender vs o
  end ++ [setIsLoading false].

End App.

(** ** Events *)

(** What the render of a state offers to the user.  The form replaces the
    "Upload Photo" button once an image is stored; the file input itself is
    hidden and is opened by that button only. *)
Definition form_rendered (w : World) : bool :=
  match originalImage w with Some _ => true | None => false end.

Definition upload_rendered (w : World) : bool := negb (form_rendered w).

(** [disabled={isLoading}] on the text input and on the submit button. *)
Definition controls_disabled (w : World) : bool := isLoading w.

(** [currentRole && !isLoading], inside the form's action area. *)
Definition change_role_rendered (w : World) : bool :=
  form_rendered w && negb (no_role (currentRole w)) && negb (isLoading w).

Inductive Event : Type :=
| SelectFile (file : option File)
    (* "Upload Photo" and the change event of the file input that follows;
       the file picker is modal, so the two are one event *)
| ReadDone (i : nat) (result : option string)
    (* the i-th reader ends: its data URL, or a read error *)
| Typing (s : string)            (* onChange of the text input *)
| Submit                         (* onSubmit of the form *)
| Settled (i : nat) (o : Outcome)  (* the i-th request in flight settles *)
| ChangeRole                     (* the "Change Role" button *)
| VoicesChanged (vs : list Voice)  (* onvoiceschanged, and the initial load *)
| UtteranceEnd.                  (* the synthesizer finishes an utterance *)

Definition with_readers (rd : list File) (w : World) : World :=
  let '(Build_World oi di p cr il er vs sy fl _ se) := w in
  Build_World oi di p cr il er vs sy fl rd se.

Definition with_inflight (fl : list (Request * Continuation)) (w : World)
  : World :=
  let '(Build_World oi di p cr il er vs sy _ rd se) := w in
  Build_World oi di p cr il er vs sy fl rd se.

Definition with_synth (sy : list Utterance) (w : World) : World :=
  let '(Build_World oi di p cr il er vs _ fl rd se) := w in
  Build_World oi di p cr il er vs sy fl rd se.

Section Machine.

Variable JSON_parse : string -> option JValue.

(** One event on a world; [None] when the render does not offer the control
    or nothing is pending under that index. *)
Definition step (w : World) (ev : Event) : option World :=
  match ev with
  | SelectFile file =>
      if upload_rendered w then Some (exec_all (handleImageChange file) w)
      else None
  | ReadDone i result =>
      f ← readers w !! i;
      let w' := with_readers (delete i (readers w)) w in
      Some (exec_all
              (match result with None => onerror | Some _ => [] end
               ++ onloadend f result) w')
  | Typing s =>
      if form_rendered w && negb (controls_disabled w)
      then Some (exec w (setPrompt s)) else None
  | Submit =>
      if form_rendered w && negb (controls_disabled w)
      then Some (exec_all (handleSubmit w) w) else None
  | Settled i o =>
      '(_, k) ← inflight w !! i;
      let w' := with_inflight (delete i (inflight w)) w in
      Some (exec_all (resume JSON_parse k o) w')
  | ChangeRole =>
      if change_role_rendered w then Some (exec_all (handleRoleReset w) w)
      else None
  | VoicesChanged vs => Some (exec w (setVoices vs))
  | UtteranceEnd => Some (with_synth (tail (synth w)) w)
  end.

Fixpoint run (evs : list Event) (w : World) : option World :=
  match evs with
  | [] => Some w
  | ev :: evs' => w' ← step w ev; run evs' w'
  end.

(** The states the component can be in. *)
Definition reachable (w : World) : Prop := ∃ evs, run evs init = Some w.

End Machine.

(** ** The proxy: [POST /api/talk] *)

Module Proxy.

(** [req.body] after [express.json()]: a member that is absent is
    [JUndefined]. *)
Record Body : Type := {
  b_text : JValue;
  b_role : JValue
}.

(** The names that an object literal inherits from [Object.prototype]:
    [__proto__] is the prototype object itself, the others are functions. *)
Definition Object_prototype_names : list string :=
  [ "constructor"; "__defineGetter__"; "__defineSetter__"; "hasOwnProperty";
    "__lookupGetter__"; "__lookupSetter__"; "isPrototypeOf";
    "propertyIsEnumerable"; "toString"; "valueOf"; "__proto__";
    "toLocaleString" ].

Definition inherited (key : string) : bool :=
  existsb (String.eqb key) Object_prototype_names.

(** The value of [voiceId]: a string, or the member of [Object.prototype]
    that the key reaches. *)
Inductive VoiceId : Type :=
| VoiceName (id : string)
| Inherited (name : string).

(** [roleVoices[key] || "default_voice"]: the table's own entry when it is
    truthy, else what the prototype holds under that name (always truthy),
    else the default. *)
Definition voice_or_default (key : string) : VoiceId :=
  match roleVoices !! key with
  | Some id => if Str.truthy id then VoiceName id else VoiceName "default_voice"
  | None =>
      if inherited key then Inherited key else VoiceName "default_voice"
  end.

(** [roleVoices[role?.toLowerCase()] || "default_voice"].  Without a role the
    key is [undefined], read as the name "undefined"; [None] is the TypeError
    of calling [toLowerCase] on a value that has none. *)
Definition voiceId_of (role : JValue) : option VoiceId :=
  match role with
  | JUndefined | JNull => Some (voice_or_default "undefined")
  | JStr r => Some (voice_or_default (Str.toLowerCase r))
  | _ => None
  end.

(** The value that a reader of [JSON.stringify(v)] gets back: a number that
    is not finite is written as [null], a negative zero as [0], [undefined]
    as [null] inside an array and not at all inside an object. *)
Fixpoint written (v : JValue) : JValue :=
  match v with
  | JUndefined => JNull
  | JNum x =>
      if PrimFloat.is_nan x || PrimFloat.is_infinity x then JNull
      else if PrimFloat.is_zero x then JNum 0%float
      else JNum x
  | JArr items => JArr (List.map written items)
  | JObj fields =>
      JObj (omap (fun m => match m with
                           | JUndefined => None
                           | _ => Some (written m)
                           end) fields)
  | _ => v
  end.

(** A property value as [JSON.stringify] writes it; [None]: the property is
    left out. *)
Definition member (v : JValue) : option JValue :=
  match v with
  | JUndefined => None
  | _ => Some (written v)
  end.

Definition voice_member (v : VoiceId) : option JValue :=
  match v with
  | VoiceName id => Some (JStr id)
  | Inherited name =>
      if String.eqb name "__proto__" then Some (JObj ∅) else None
  end.

Definition set_member (k : string) (o : option JValue)
    (m : gmap string JValue) : gmap string JValue :=
  match o with
  | Some v => <[k := v]> m
  | None => m
  end.

(** The call of [fetch]: the address, the options, and the JSON that
    [JSON.stringify] made of the body. *)
Record TalkRequest : Type := {
  url : string;
  method : string;
  authorization : string;
  content_type : string;
  body : JValue
}.

(** The [script] object of a request body. *)
Definition script_of (req : TalkRequest) : gmap string JValue :=
  match body req with
  | JObj top =>
      match top !! "script" with
      | Some (JObj script) => script
      | _ => ∅
      end
  | _ => ∅
  end.

(** How the upstream call ends: [fetch] rejects, [response.json()] rejects,
    or the body parses to [data], a value of [JSON.parse] and so never
    [undefined]. *)
Inductive Upstream : Type :=
| FetchRejects
| BodyNotJson
| Json (data : JValue).

(** What the handler writes to [res]: the status and the JSON of the body. *)
Record Reply : Type := {
  status : nat;
  payload : JValue
}.

Definition something_went_wrong : Reply :=
  {| status := 500;
     payload := JObj {[ "error" := JStr "Something went wrong" ]} |}.

Section Handler.

(** [process.env.DID_API_KEY] *)
Variable DID_API_KEY : option string.

Definition talk_request (text : JValue) (voiceId : VoiceId) : TalkRequest :=
  let script :=
    set_member "voice_id" (voice_member voiceId)
      (set_member "input" (member text)
         (<["type" := JStr "text"]> ∅)) in
  {| url := "https://api.d-id.com/talks";
     method := "POST";
     authorization := "Bearer " +:+ JS.tpl DID_API_KEY;
     content_type := "application/json";
     body :=
       JObj (<["source_url" := JStr "https://....avatar-image-url"]>
               (<["script" := JObj script]> ∅)) |}.

(** The handler: the requests it sends upstream and its reply.  [body] is
    [None] when [req.body] is [undefined]; [res.json(data)] writes [data]
    anew. *)
Definition talk (body : option Body) (up : Upstream)
  : list TalkRequest * Reply :=
  match body with
  | None => ([], something_went_wrong)
  | Some b =>
      match voiceId_of (b_role b) with
      | None => ([], something_went_wrong)
      | Some voiceId =>
          let req := talk_request (b_text b) voiceId in
          match up with
          | FetchRejects | BodyNotJson => ([req], something_went_wrong)
          | Json data => ([req], {| status := 200; payload := written data |})
          end
      end
  end.

End Handler.

End Proxy.

(** ** Sample data *)

Module Samples.

(** Two voices that Chrome installs, in the order it lists them. *)
Definition uk_female : Voice :=
  {| v_name := "Google UK English Female"; v_lang := "en-GB";
     v_default := false; v_localService := false |}.

Definition uk_male : Voice :=
  {| v_name := "Google UK English Male"; v_lang := "en-GB";
     v_default := false; v_localService := false |}.

Definition chrome_voices : list Voice := [uk_female; uk_male].

Definition png : File := {| file_type := "image/png" |}.

Definition photo_url : string := "data:image/png;base64,AAAA".

Definition photo : EncodedImage :=
  {| base64 := Some "AAAA"; mimeType := "image/png" |}.

(** A response of the image model whose first part is an inline image. *)
Definition transformed : GenerateContentResponse :=
  {| candidates :=
       Some [ {| content :=
                   Some {| parts :=
                             Some [ {| inlineData :=
                                         Some {| id_data := Some "BBBB";
                                                 id_mimeType := Some "image/png" |} |} ] |} |} ];
     text := None |}.

(** The JSON text of a well-formed chat reply. *)
Definition reply_json : string :=
  "{" +:+ Str.dq +:+ "language" +:+ Str.dq +:+ ":" +:+ Str.dq +:+ "en-GB"
  +:+ Str.dq +:+ "," +:+ Str.dq +:+ "response" +:+ Str.dq +:+ ":" +:+ Str.dq
  +:+ "I am the king." +:+ Str.dq +:+ "}".

Definition reply_value : JValue :=
  JObj {[ "language" := JStr "en-GB"; "response" := JStr "I am the king." ]}.

(** A parser that knows [reply_json] and the empty object and rejects every
    other text.  The examples apply it to these two texts, to plain sentences
    and to the empty string, where it agrees with [JSON.parse]. *)
Definition parse_sample (s : string) : option JValue :=
  if String.eqb s reply_json then Some reply_value
  else if String.eqb s "{}" then Some (JObj ∅)
  else None.

Definition chat_reply (t : string) : GenerateContentResponse :=
  {| candidates := None; text := Some t |}.

(** Upload a photo; ask for a king and receive the transformed image; put a
    question to the king. *)
Definition selected : list Event :=
  [ VoicesChanged chrome_voices; SelectFile (Some png) ].

Definition upload : list Event := selected ++ [ ReadDone 0 (Some photo_url) ].

Definition role_play : list Event :=
  [ Typing "king"; Submit; Settled 0 (Resolved transformed) ].

Definition become_king : list Event := upload ++ role_play.

Definition question : list Event := become_king ++ [ Typing "Who are you?" ].



Definition asked : list Event := question ++ [ Submit ].

(** The king answers, in a browser with the two voices. *)
Definition answered : list Event :=
  asked ++ [ Settled 0 (Resolved (chat_reply reply_json)) ].


(** The world after a trace of events, under [parse_sample]. *)
Definition world_of (evs : list Event) : World :=
  default init (run parse_sample evs init).

End Samples.

(** ** A late read *)

Module Race.

Definition jpeg : File := {| file_type := "image/jpeg" |}.

Definition second_url : string := "data:image/jpeg;base64,CCCC".

Definition second_photo : EncodedImage :=
  {| base64 := Some "CCCC"; mimeType := "image/jpeg" |}.

(** Two files are chosen before the first has been read.  The first is read
    and turned into a king; only then does the read of the second end; then
    a question is typed. *)
Definition late_read : list Event :=
  [ VoicesChanged Samples.chrome_voices; SelectFile (Some Samples.png);
    SelectFile (Some jpeg); ReadDone 0 (Some Samples.photo_url) ]
  ++ Samples.role_play
  ++ [ ReadDone 0 (Some second_url); Typing "Who are you?" ].

(** The king's world in which the change event arrives once more. *)
Definition changed : World :=
  exec_all (handleImageChange (Some jpeg))
    (Samples.world_of Samples.become_king).

(** The world after a trace of events from [w], under [parse_sample]. *)
Definition after (w : World) (evs : list Event) : World :=
  default init (run Samples.parse_sample evs w).

End Race.

(** ** Measures and invariants *)

(** The [generateContent] calls among a handler's effects. *)
Fixpoint requests_of (es : list Effect) : list Request :=
  match es with
  | [] => []
  | generateContent req _ :: es' => req :: requests_of es'
  | _ :: es' => requests_of es'
  end.

(** The submitted input that a continuation holds. *)
Definition prompt_of (k : Continuation) : string :=
  match k with
  | AfterTransform currentPrompt => currentPrompt
  | AfterChat currentPrompt _ _ => currentPrompt
  end.

(** The inline image that [after_transform] finds in a response, if any. *)
Definition inline_image (response : GenerateContentResponse)
  : option InlineData :=
  match first_part response with
  | Some (Some part) => inlineData part
  | _ => None
  end.

(** The events that are a form submission, and those that end a file read. *)
Definition is_submit (ev : Event) : bool :=
  match ev with Submit => true | _ => false end.

Definition is_read_done (ev : Event) : bool :=
  match ev with ReadDone _ _ => true | _ => false end.

(** What holds in every reachable state. *)
Record Inv (w : World) : Prop := {
  (* the role is [null] or a non-empty string *)
  inv_role : no_role (currentRole w) = true → currentRole w = None;
  (* the loading flag is set exactly while one request is in flight *)
  inv_loading :
    (isLoading w = true ∧ ∃ rk, inflight w = [rk])
    ∨ (isLoading w = false ∧ inflight w = []);
  (* a continuation holds a non-empty input *)
  inv_prompts :
    Forall (λ rk, Str.truthy (prompt_of rk.2) = true) (inflight w);
  (* the synthesizer holds at most one utterance *)
  inv_synth : length (synth w) ≤ 1;
  (* before the first image is stored there is no role and no request *)
  inv_fresh : originalImage w = None → currentRole w = None ∧ inflight w = []
}.

(** ** The render *)

(** The form of the action area. *)
Record FormView : Type := {
  input_value : string;
  placeholder : string;
  aria_label : string;
  input_disabled : bool;
  button_label : string;
  button_disabled : bool;
  change_role_button : bool
}.

(** What [App] returns: the loader, the source of the avatar image ([None] is
    the hint "Upload a photo to begin"), the form ([None] is the "Upload
    Photo" button), and the text of the alert. *)
Record View : Type := {
  loader : bool;
  avatar : option string;
  form : option FormView;
  alert : option string
}.

(** [s ? s : undefined] for a string or [null]. *)
Definition truthy_text (o : option string) : option string :=
  match o with
  | Some s => if Str.truthy s then Some s else None
  | None => None
  end.

Definition render (w : World) : View :=
  let role := JS.tpl (currentRole w) in
  let has_role := negb (no_role (currentRole w)) in
  {| loader := isLoading w;
     avatar := truthy_text (displayImage w);
     form :=
       match originalImage w with
       | Some _ =>
           Some {| input_value := prompt w;
                   placeholder :=
                     if has_role then "Ask the " +:+ role +:+ "..."
                     else "Make me a queen...";
                   aria_label :=
                     if has_role then "Ask the " +:+ role
                     else "Enter a new role";
                   input_disabled := isLoading w;
                   button_label :=
                     if isLoading w then "Thinking..."
                     else if has_role then "Ask" else "Transform";
                   button_disabled := isLoading w;
                   change_role_button := has_role && negb (isLoading w) |}
       | None => None
       end;
     alert := truthy_text (error w) |}.

(** ** The entry file *)

Module Entry.

(** [voices.find(v => v.lang === lang)
     || voices.find(v => v.lang.startsWith(lang.split('-')[0]))];
    the outer [None] is the TypeError of [lang.split] on a value that is not a
    string, raised at the first voice. *)
Definition voice_of (voices : list Voice) (lang : JValue)
  : option (option Voice) :=
  match lang with
  | JStr l =>
      Some (or_else
              (List.find (fun v => String.eqb (v_lang v) l) voices)
              (List.find
                 (fun v => Str.startsWith (v_lang v)
                             (default "" (head (Str.split l "-"))))
                 voices))
  | _ => match voices with [] => Some None | _ :: _ => None end
  end.

(** [speak(text, lang)] of the entry file. *)
Definition speak (vs : list Voice) (text lang : JValue)
  : list Effect * Completion :=
  match voice_of vs lang with
  | None => ([synthCancel], Thrown)
  | Some voice =>
      ([synthCancel;
        synthSpeak {| u_text := text; u_lang := lang; u_voice := voice |}],
       Normal)
  end.

End Entry.

(** ** Further measures and invariants *)

(** Whether a character occurs in a string. *)
Fixpoint has_char (c : ascii) (s : string) : bool :=
  match s with
  | EmptyString => false
  | String a s' => Ascii.eqb a c || has_char c s'
  end.

(** [lang.split('-')[0]] *)
Definition primary_of (lang : string) : string :=
  default "" (head (Str.split lang "-")).


(** What the requests sent so far have to do with the state, in every
    reachable state. *)
Record Consistent (w : World) : Prop := {
  (* an image is displayed exactly when one is stored *)
  con_hidden : originalImage w = None → displayImage w = None;
  con_shown :
    originalImage w ≠ None →
    ∃ url, displayImage w = Some url ∧ Str.truthy url = true;
  (* the text field is empty while a request is in flight *)
  con_cleared : isLoading w = true → prompt w = "";
  (* the role was the prompt of a transform request *)
  con_role :
    ∀ role, currentRole w = Some role →
      ∃ j img, sent w !! j = Some (ImageTransform img (transform_instruction role));
  (* a request in flight was sent, and a transform continuation holds the
     prompt of its request *)
  con_flight :
    ∀ req k, In (req, k) (inflight w) →
      In req (sent w)
      ∧ ∀ cp, k = AfterTransform cp →
          ∃ img, req = ImageTransform img (transform_instruction cp);
  (* a chat turn follows a transform for its role *)
  con_chat :
    ∀ i si c, sent w !! i = Some (ChatTurn si c) →
      ∃ role img j,
        j < i ∧ si = chat_instruction role
        ∧ sent w !! j = Some (ImageTransform img (transform_instruction role))
}.

(** * Properties *)

(** ** Strings *)

Lemma trimEnd_empty_iff (s : string) :
  Str.trimEnd s = EmptyString ↔ Str.blank s = true.
Proof.
  induction s as [|c s IH]; simpl; [done|].
  destruct (Str.is_ws c); simpl.
  - destruct (Str.trimEnd s) eqn:Ht; simpl.
    + split; [intros _; by apply IH | done].
    + split; [done | intros Hb; apply IH in Hb; done].
  - split; done.
Qed.

Lemma trimStart_blank (s : string) :
  Str.blank (Str.trimStart s) = true → Str.trimStart s = EmptyString.
Proof.
  induction s as [|c s IH]; simpl; [done|].
  destruct (Str.is_ws c) eqn:Hc; [done|].
  simpl. by rewrite Hc.
Qed.

Lemma trimStart_of_blank (s : string) :
  Str.blank s = true → Str.trimStart s = EmptyString.
Proof.
  induction s as [|c s IH]; simpl; [done|].
  destruct (Str.is_ws c); simpl; [done | discriminate].
Qed.

Lemma trimStart_empty_blank (s : string) :
  Str.trimStart s = EmptyString → Str.blank s = true.
Proof.
  induction s as [|c s IH]; simpl; [done|].
  destruct (Str.is_ws c); simpl; [done | discriminate].
Qed.

Example trim_pads : Str.trim "  Make me a queen " = "Make me a queen".
Proof. reflexivity. Qed.

Example split_data_url :
  Str.split "data:image/png;base64,AAAA" "," !! 1 = Some "AAAA".
Proof. reflexivity. Qed.

Example split_no_comma : Str.split "data:" "," !! 1 = None.
Proof. reflexivity. Qed.

Example primary_subtag : head (Str.split "hi-IN" "-") = Some "hi".
Proof. reflexivity. Qed.

Example fenced_json : jsonString_of "```json {} ```" = "{}".
Proof. reflexivity. Qed.

Example role_normalized : gender_of_role "  Police Officer " = male.
Proof. vm_compute. reflexivity. Qed.

Example role_unmapped : gender_of_role "astronaut" = neutral.
Proof. vm_compute. reflexivity. Qed.

(** [prompt.trim()] is the empty string exactly for a blank prompt. *)
Lemma trim_empty_iff (s : string) :
  Str.trim s = EmptyString ↔ Str.blank s = true.
Proof.
  unfold Str.trim. split.
  - intros H. apply trimEnd_empty_iff, trimStart_blank in H.
    by apply trimStart_empty_blank.
  - intros H. by rewrite (trimStart_of_blank _ H).
Qed.

Lemma truthy_trim_iff (s : string) :
  Str.truthy (Str.trim s) = true ↔ Str.blank s = false.
Proof.
  unfold Str.truthy. destruct (Str.trim s) eqn:Ht; simpl.
  - apply trim_empty_iff in Ht. rewrite Ht. split; discriminate.
  - split; [|done]. intros _. destruct (Str.blank s) eqn:Hb; [|done].
    apply trim_empty_iff in Hb. congruence.
Qed.

Lemma not_blank_truthy (s : string) :
  Str.blank s = false → Str.truthy s = true.
Proof. by destruct s. Qed.

(** ** The guard *)

Lemma guard_fails_iff (w : World) :
  guard_fails w = true ↔ Str.blank (prompt w) = true ∨ originalImage w = None.
Proof.
  unfold guard_fails. rewrite orb_true_iff, negb_true_iff.
  destruct (Str.blank (prompt w)) eqn:Hb.
  - split; [by left|]. intros _. left.
    destruct (Str.truthy _) eqn:Ht; [|done].
    apply truthy_trim_iff in Ht. congruence.
  - apply truthy_trim_iff in Hb. rewrite Hb.
    destruct (originalImage w); split; intros [?|?]; try done; by right.
Qed.

Lemma guard_passes_iff (w : World) :
  guard_fails w = false ↔
  Str.blank (prompt w) = false ∧ ∃ img, originalImage w = Some img.
Proof.
  destruct (guard_fails w) eqn:Hg.
  - apply guard_fails_iff in Hg. split; [done|].
    intros [Hb [img Hi]]. destruct Hg; congruence.
  - split; [|done]. intros _.
    destruct (Str.blank (prompt w)) eqn:Hb.
    + assert (guard_fails w = true) by (apply guard_fails_iff; by left).
      congruence.
    + split; [done|]. destruct (originalImage w) as [img|] eqn:Hi; [eauto|].
      assert (guard_fails w = true) by (apply guard_fails_iff; by right).
      congruence.
Qed.

(** ** What the handlers touch *)

Lemma exec_all_app (es1 es2 : list Effect) (w : World) :
  exec_all (es1 ++ es2) w = exec_all es2 (exec_all es1 w).
Proof. apply fold_left_app. Qed.

Lemma speak_shape (vs : list Voice) (text lang : JValue) (g : Gender) :
  (∃ u, speak vs text lang g = ([synthCancel; synthSpeak u], Normal)
        ∧ u_text u = text ∧ u_lang u = lang)
  ∨ (speak vs text lang g = ([synthCancel], Thrown)
     ∧ vs ≠ [] ∧ ∀ l, lang ≠ JStr l).
Proof.
  unfold speak. destruct (langVoices_of vs lang) as [lv|] eqn:H.
  - left. eauto.
  - right. split; [done|].
    destruct lang; simpl in H; try done; destruct vs; done.
Qed.

Lemma speak_string_lang (vs : list Voice) (text : JValue) (l : string)
    (g : Gender) :
  speak vs text (JStr l) g =
  ([synthCancel;
    synthSpeak {| u_text := text; u_lang := JStr l;
                  u_voice := voice_for (List.filter (lang_matches l) vs) g |}],
   Normal).
Proof. reflexivity. Qed.

Section Frames.

Variable JSON_parse : string -> option JValue.

Lemma resume_frame (k : Continuation) (o : Outcome) (w : World) :
  let w' := exec_all (resume JSON_parse k o) w in
  originalImage w' = originalImage w ∧ inflight w' = inflight w
  ∧ readers w' = readers w ∧ sent w' = sent w ∧ voices w' = voices w
  ∧ isLoading w' = false
  ∧ (currentRole w' = currentRole w ∨ currentRole w' = Some (prompt_of k))
  ∧ (length (synth w) ≤ 1 → length (synth w') ≤ 1).
Proof.
  destruct w, k; unfold resume, after_transform, after_chat, catch_parse,
    catch_all, speak; simpl;
    repeat case_match; simplify_eq; simpl; repeat split; auto; simpl; lia.
Qed.

End Frames.

(** ** The three shapes of [handleSubmit] *)

Lemma handleSubmit_blocked (w : World) :
  guard_fails w = true →
  handleSubmit w = [setError (Some "Please provide a role or a message.")].
Proof. unfold handleSubmit. by intros ->. Qed.

Lemma handleSubmit_transform (w : World) (img : EncodedImage) :
  guard_fails w = false → originalImage w = Some img →
  no_role (currentRole w) = true →
  handleSubmit w =
  [setIsLoading true; setError None; setPrompt "";
   generateContent (ImageTransform img (transform_instruction (prompt w)))
                   (AfterTransform (prompt w))].
Proof.
  unfold handleSubmit. intros -> -> Hr.
  destruct (currentRole w); [by rewrite Hr | done].
Qed.

Lemma handleSubmit_chat (w : World) (role : string) :
  guard_fails w = false → currentRole w = Some role →
  no_role (currentRole w) = false →
  handleSubmit w =
  [setIsLoading true; setError None; setPrompt "";
   generateContent (ChatTurn (chat_instruction role) (prompt w))
                   (AfterChat (prompt w) (gender_of_role role) (voices w))].
Proof.
  unfold handleSubmit. intros -> Hr Hn. rewrite Hr in *. by rewrite Hn.
Qed.

Lemma requests_of_app (es1 es2 : list Effect) :
  requests_of (es1 ++ es2) = requests_of es1 ++ requests_of es2.
Proof.
  induction es1 as [|e es1 IH]; [done|].
  destruct e; simpl; by rewrite ?IH.
Qed.

(** The continuation of a submission issues no request. *)
Lemma resume_no_request (parse : string → option JValue)
    (k : Continuation) (o : Outcome) :
  requests_of (resume parse k o) = [].
Proof.
  destruct k; unfold resume, after_transform, after_chat, catch_parse,
    catch_all, speak; simpl;
    repeat case_match; simplify_eq; reflexivity.
Qed.

(** ** The invariant *)

Lemma Inv_init : Inv init.
Proof. split; simpl; auto. Qed.

Section Invariant.

Variable JSON_parse : string -> option JValue.

Lemma Inv_step (w w' : World) (ev : Event) :
  Inv w → step JSON_parse w ev = Some w' → Inv w'.
Proof.
  intros [Hrole Hload Hprompts Hsynth Hfresh] Hstep.
  destruct ev; simpl in Hstep.
  - (* SelectFile *)
    destruct (upload_rendered w) eqn:Hup; [|done]. simplify_eq.
    destruct w, file; simpl in *; split; simpl; auto.
    intros Hnone. split; [done|]. by apply Hfresh.
  - (* ReadDone *)
    destruct (readers w !! i) as [f|] eqn:Hf; [|done]. simpl in Hstep.
    simplify_eq.
    destruct w, result; simpl in *; split; simpl; auto; done.
  - (* Typing *)
    destruct (form_rendered w && negb (controls_disabled w)); [|done].
    simplify_eq. destruct w; simpl in *; split; simpl; auto.
  - (* Submit *)
    destruct (form_rendered w && negb (controls_disabled w)) eqn:Hen; [|done].
    simplify_eq. apply andb_true_iff in Hen as [Hform Hidle].
    unfold controls_disabled in Hidle. apply negb_true_iff in Hidle.
    destruct Hload as [[? _]|[_ Hfl]]; [congruence|].
    destruct (guard_fails w) eqn:Hg.
    { rewrite (handleSubmit_blocked _ Hg).
      destruct w; simpl in *; split; simpl; auto. }
    pose proof Hg as Hg'. apply guard_passes_iff in Hg' as [Hb [img Himg]].
    apply not_blank_truthy in Hb.
    destruct (no_role (currentRole w)) eqn:Hn.
    + rewrite (handleSubmit_transform _ _ Hg Himg Hn).
      destruct w; simpl in *; subst; split; simpl; auto;
        try (left; by eauto); intros; simplify_eq; congruence.
    + destruct (currentRole w) as [role|] eqn:Hr; [|done].
      rewrite (handleSubmit_chat _ _ Hg Hr); [|by rewrite Hr].
      destruct w; simpl in *; subst; split; simpl; auto;
        try (left; by eauto); intros; simplify_eq; congruence.
  - (* Settled *)
    destruct (inflight w !! i) as [[req k]|] eqn:Hk; [|done].
    simpl in Hstep. simplify_eq.
    destruct Hload as [[Hl [rk Hfl]]|[_ Hfl]]; rewrite Hfl in Hk;
      [|by destruct i].
    destruct i; [|by destruct i]. simpl in Hk. simplify_eq.
    rewrite Hfl in Hprompts. apply Forall_cons in Hprompts as [Hp _].
    simpl in Hp.
    pose proof (resume_frame JSON_parse k o
                  (with_inflight (delete 0 (inflight w)) w)) as HF.
    simpl in HF. destruct HF as (Hoi & Hin & _ & _ & _ & Hil & Hcr & Hsy).
    rewrite Hfl in *. simpl in *.
    assert (Hw : ∀ fl, originalImage (with_inflight fl w) = originalImage w
                       ∧ currentRole (with_inflight fl w) = currentRole w
                       ∧ synth (with_inflight fl w) = synth w
                       ∧ inflight (with_inflight fl w) = fl)
      by (intros; by destruct w).
    destruct (Hw []) as (Hw1 & Hw2 & Hw3 & Hw4).
    rewrite Hw1 in Hoi. rewrite Hw2 in Hcr. rewrite Hw3 in Hsy.
    rewrite Hw4 in Hin.
    split.
    + destruct Hcr as [->| ->]; [done|]. simpl. by rewrite Hp.
    + right. by rewrite Hil, Hin.
    + rewrite Hin. constructor.
    + auto.
    + rewrite Hoi. intros Hnone. destruct (Hfresh Hnone). congruence.
  - (* ChangeRole *)
    destruct (change_role_rendered w); [|done]. simplify_eq.
    unfold handleRoleReset.
    destruct w; simpl in *. destruct originalImage0; split; simpl; auto.
    + intros; done.
    + intros Hnone. split; [done | by apply Hfresh].
  - (* VoicesChanged *)
    simplify_eq. destruct w; simpl in *; split; simpl; auto.
  - (* UtteranceEnd *)
    simplify_eq. destruct w; simpl in *; split; simpl; auto.
    destruct synth0; simpl in *; lia.
Qed.

Lemma Inv_run (evs : list Event) (w w' : World) :
  Inv w → run JSON_parse evs w = Some w' → Inv w'.
Proof.
  revert w. induction evs as [|ev evs IH]; intros w HI Hrun; simpl in Hrun.
  - by simplify_eq.
  - destruct (step JSON_parse w ev) as [w1|] eqn:Hs; [|done].
    simpl in Hrun. eapply IH; [|done]. by eapply Inv_step.
Qed.

Lemma Inv_reachable (w : World) : reachable JSON_parse w → Inv w.
Proof. intros [evs H]. by eapply Inv_run; [apply Inv_init|]. Qed.

Lemma run_app (evs1 evs2 : list Event) (w : World) :
  run JSON_parse (evs1 ++ evs2) w =
  run JSON_parse evs1 w ≫= run JSON_parse evs2.
Proof.
  revert w. induction evs1 as [|ev evs1 IH]; intros w; simpl; [done|].
  destruct (step JSON_parse w ev); simpl; [apply IH | done].
Qed.

End Invariant.

(** ** Submissions *)

Lemma after_transform_success (cp : string) (r : GenerateContentResponse)
    (d : InlineData) :
  inline_image r = Some d →
  after_transform cp (Resolved r) =
  [setDisplayImage (dataURL (JS.tpl (id_mimeType d)) (id_data d));
   setCurrentRole (Some cp)].
Proof.
  unfold inline_image, after_transform.
  destruct (first_part r) as [[part|]|]; try done.
  simpl. by intros ->.
Qed.


Section Submission.

Variable JSON_parse : string -> option JValue.

(** C10. A submission with a blank prompt or without an uploaded image sets
    the error message "Please provide a role or a message." and issues no
    request; the role, both images, the prompt text and the loading flag stay
    as they were.  A submission that passes the guard issues exactly one
    request, its continuation none. *)
Theorem submit_guard (w : World) :
  let w' := exec_all (handleSubmit w) w in
  (Str.blank (prompt w) = true ∨ originalImage w = None →
   requests_of (handleSubmit w) = []
   ∧ sent w' = sent w ∧ inflight w' = inflight w
   ∧ error w' = Some "Please provide a role or a message."
   ∧ currentRole w' = currentRole w ∧ originalImage w' = originalImage w
   ∧ displayImage w' = displayImage w ∧ prompt w' = prompt w
   ∧ isLoading w' = isLoading w)
  ∧ (Str.blank (prompt w) = false → originalImage w ≠ None →
     ∃ req k,
       requests_of (handleSubmit w) = [req]
       ∧ sent w' = sent w ++ [req] ∧ inflight w' = inflight w ++ [(req, k)]
       ∧ ∀ o, requests_of (resume JSON_parse k o) = []).
Proof.
  cbv zeta. split.
  - intros Hg. apply guard_fails_iff in Hg.
    rewrite (handleSubmit_blocked _ Hg). by destruct w.
  - intros Hb Hi.
    assert (Hg : guard_fails w = false).
    { apply guard_passes_iff. split; [done|].
      destruct (originalImage w); [eauto | done]. }
    pose proof Hg as Hg'. apply guard_passes_iff in Hg' as [_ [img Himg]].
    destruct (no_role (currentRole w)) eqn:Hn.
    + rewrite (handleSubmit_transform _ _ Hg Himg Hn).
      eexists _, _. split; [reflexivity|].
      split; [by destruct w|]. split; [by destruct w|].
      intros o. apply resume_no_request.
    + destruct (currentRole w) as [role|] eqn:Hr; [|done].
      rewrite (handleSubmit_chat _ _ Hg Hr); [|by rewrite Hr].
      eexists _, _. split; [reflexivity|].
      split; [by destruct w|]. split; [by destruct w|].
      intros o. apply resume_no_request.
Qed.

(** C1. A submission that passes the guard dispatches on [currentRole]: with
    no role it issues the image-transform request, and a response carrying an
    inline image sets [currentRole] to the submitted prompt; with a role it
    issues the chat-turn request.  Either way it is the only request of the
    submission. *)
Theorem handleSubmit_dispatch (evs : list Event) (w : World) :
  run JSON_parse evs init = Some w → guard_fails w = false →
  ∃ img, originalImage w = Some img
  ∧ (currentRole w = None →
     handleSubmit w =
     [setIsLoading true; setError None; setPrompt "";
      generateContent (ImageTransform img (transform_instruction (prompt w)))
                      (AfterTransform (prompt w))]
     ∧ ∀ r d w0, inline_image r = Some d →
         currentRole
           (exec_all (resume JSON_parse (AfterTransform (prompt w)) (Resolved r))
              w0) = Some (prompt w))
  ∧ (∀ role, currentRole w = Some role →
     handleSubmit w =
     [setIsLoading true; setError None; setPrompt "";
      generateContent (ChatTurn (chat_instruction role) (prompt w))
                      (AfterChat (prompt w) (gender_of_role role) (voices w))])
  ∧ (∃ req, requests_of (handleSubmit w) = [req])
  ∧ ∀ k o, requests_of (resume JSON_parse k o) = [].
Proof.
  intros Hrun Hg.
  assert (HI : Inv w) by (apply (Inv_reachable JSON_parse); by exists evs).
  pose proof Hg as Hg'. apply guard_passes_iff in Hg' as [_ [img Himg]].
  exists img. split; [done|]. split; [|split; [|split]].
  - intros Hnone. split.
    + rewrite (handleSubmit_transform _ _ Hg Himg);
        [done | by rewrite Hnone].
    + intros r d w0 Hd. unfold resume.
      rewrite (after_transform_success _ _ _ Hd). by destruct w0.
  - intros role Hr. apply handleSubmit_chat; [done..|].
    destruct (no_role (currentRole w)) eqn:Hn; [|done].
    apply (inv_role _ HI) in Hn. congruence.
  - destruct (no_role (currentRole w)) eqn:Hn.
    + rewrite (handleSubmit_transform _ _ Hg Himg Hn). simpl. eauto.
    + destruct (currentRole w) as [role|] eqn:Hr; [|done].
      rewrite (handleSubmit_chat _ _ Hg Hr); [|by rewrite Hr]. simpl. eauto.
  - intros k o. apply resume_no_request.
Qed.

End Submission.

Lemma submit_guard_witness :
  (Str.blank (prompt init) = true ∨ originalImage init = None)
  ∧ error (exec_all (handleSubmit init) init)
    = Some "Please provide a role or a message."
  ∧ Str.blank (prompt (Samples.world_of Samples.question)) = false
  ∧ originalImage (Samples.world_of Samples.question) ≠ None
  ∧ ∃ req, requests_of (handleSubmit (Samples.world_of Samples.question))
           = [req].
Proof.
  split; [by left|]. split.
  - apply (submit_guard Samples.parse_sample init). by left.
  - split; [reflexivity|]. split; [discriminate|].
    destruct (proj2 (submit_guard Samples.parse_sample
                       (Samples.world_of Samples.question))
                eq_refl ltac:(discriminate)) as (req & k & H & _).
    by exists req.
Defined.

Lemma handleSubmit_dispatch_witness :
  run Samples.parse_sample Samples.question init
  = Some (Samples.world_of Samples.question)
  ∧ guard_fails (Samples.world_of Samples.question) = false
  ∧ ∃ req, requests_of (handleSubmit (Samples.world_of Samples.question))
           = [req].
Proof.
  assert (H1 : run Samples.parse_sample Samples.question init
               = Some (Samples.world_of Samples.question))
    by (vm_compute; reflexivity).
  assert (H2 : guard_fails (Samples.world_of Samples.question) = false)
    by (vm_compute; reflexivity).
  split; [exact H1|]. split; [exact H2|].
  destruct (handleSubmit_dispatch Samples.parse_sample _ _ H1 H2)
    as (img & _ & _ & _ & Hreq & _).
  exact Hreq.
Defined.

(** ** One request, one utterance *)

Lemma resume_ends (parse : string → option JValue) (k : Continuation)
    (o : Outcome) :
  ∃ es, resume parse k o = es ++ [setIsLoading false].
Proof. unfold resume. eauto. Qed.

Section Serialized.

Variable JSON_parse : string -> option JValue.

(** C7. At most one request is in flight: the loading flag is set exactly
    while a request is in flight; a submission sets the flag before it issues
    its request; the continuation clears the flag last, however the request
    settled; and while the flag is set the text input and the submit button
    are disabled, so that neither typing nor a submission can take place. *)
Theorem one_request_at_a_time (evs : list Event) (w : World) :
  run JSON_parse evs init = Some w →
  length (inflight w) ≤ 1
  ∧ (isLoading w = true ↔ inflight w ≠ [])
  ∧ (guard_fails w = false →
     ∃ req k, handleSubmit w =
              [setIsLoading true; setError None; setPrompt "";
               generateContent req k])
  ∧ (∀ k o, (∃ es, resume JSON_parse k o = es ++ [setIsLoading false])
            ∧ ∀ w0, isLoading (exec_all (resume JSON_parse k o) w0) = false)
  ∧ (isLoading w = true →
     controls_disabled w = true
     ∧ step JSON_parse w Submit = None
     ∧ ∀ s, step JSON_parse w (Typing s) = None).
Proof.
  intros Hrun.
  assert (HI : Inv w) by (apply (Inv_reachable JSON_parse); by exists evs).
  assert (Hissue : guard_fails w = false →
            ∃ req k, handleSubmit w =
                     [setIsLoading true; setError None; setPrompt "";
                      generateContent req k]).
  { intros Hg. pose proof Hg as Hg'.
    apply guard_passes_iff in Hg' as [_ [img Himg]].
    destruct (no_role (currentRole w)) eqn:Hn.
    - rewrite (handleSubmit_transform _ _ Hg Himg Hn). eauto.
    - destruct (currentRole w) as [role|] eqn:Hr; [|done].
      rewrite (handleSubmit_chat _ _ Hg Hr); [eauto | by rewrite Hr]. }
  assert (Hclear : ∀ k o,
            (∃ es, resume JSON_parse k o = es ++ [setIsLoading false])
            ∧ ∀ w0, isLoading (exec_all (resume JSON_parse k o) w0) = false).
  { intros k o. split; [apply resume_ends|]. intros w0.
    by destruct (resume_frame JSON_parse k o w0)
      as (_ & _ & _ & _ & _ & ? & _). }
  assert (Hblock : isLoading w = true →
            controls_disabled w = true
            ∧ step JSON_parse w Submit = None
            ∧ ∀ s, step JSON_parse w (Typing s) = None).
  { intros Hl. simpl. unfold controls_disabled. rewrite Hl.
    split; [done|]. split; [|intros s]; by rewrite andb_false_r. }
  destruct (inv_loading _ HI) as [[Hl [rk Hfl]]|[Hl Hfl]].
  - split; [rewrite Hfl; simpl; lia|].
    split; [rewrite Hfl; split; congruence|]. auto.
  - split; [rewrite Hfl; simpl; lia|].
    split; [rewrite Hfl, Hl; split; congruence|]. auto.
Qed.

(** C6. [speak] cancels what the synthesizer holds before anything else and
    queues at most one utterance after that, so the queue never holds more
    than one utterance of the program. *)
Theorem speak_one_utterance :
  (∀ vs text lang g,
     ∃ rest, (speak vs text lang g).1 = synthCancel :: rest
             ∧ (rest = [] ∨ ∃ u, rest = [synthSpeak u]))
  ∧ (∀ vs text lang g w,
       length (synth (exec_all (speak vs text lang g).1 w)) ≤ 1)
  ∧ (∀ evs w, run JSON_parse evs init = Some w → length (synth w) ≤ 1).
Proof.
  split; [|split].
  - intros vs text lang g.
    destruct (speak_shape vs text lang g) as [(u & -> & _)|[-> _]]; simpl;
      eauto.
  - intros vs text lang g w.
    destruct (speak_shape vs text lang g) as [(u & -> & _)|[-> _]];
      destruct w; simpl; lia.
  - intros evs w Hrun.
    apply (inv_synth w), (Inv_reachable JSON_parse). by exists evs.
Qed.

End Serialized.

Lemma one_request_at_a_time_witness :
  let asked := Samples.world_of Samples.question in
  let waiting := Samples.world_of (Samples.question ++ [Submit]) in
  run Samples.parse_sample Samples.question init = Some asked
  ∧ guard_fails asked = false
  ∧ (∃ req k, handleSubmit asked =
              [setIsLoading true; setError None; setPrompt "";
               generateContent req k])
  ∧ run Samples.parse_sample (Samples.question ++ [Submit]) init = Some waiting
  ∧ isLoading waiting = true
  ∧ step Samples.parse_sample waiting Submit = None.
Proof.
  cbv zeta.
  assert (H1 : run Samples.parse_sample Samples.question init
               = Some (Samples.world_of Samples.question))
    by (vm_compute; reflexivity).
  assert (H2 : run Samples.parse_sample (Samples.question ++ [Submit]) init
               = Some (Samples.world_of (Samples.question ++ [Submit])))
    by (vm_compute; reflexivity).
  split; [exact H1|]. split; [vm_compute; reflexivity|]. split.
  - apply (one_request_at_a_time Samples.parse_sample _ _ H1).
    vm_compute; reflexivity.
  - split; [exact H2|]. split; [vm_compute; reflexivity|].
    apply (one_request_at_a_time Samples.parse_sample _ _ H2).
    vm_compute; reflexivity.
Defined.

Lemma speak_one_utterance_witness :
  let spoken :=
    Samples.question
    ++ [Submit; Settled 0 (Resolved (Samples.chat_reply Samples.reply_json))] in
  run Samples.parse_sample spoken init = Some (Samples.world_of spoken)
  ∧ length (synth (Samples.world_of spoken)) = 1
  ∧ length (synth (Samples.world_of spoken)) ≤ 1.
Proof.
  cbv zeta.
  assert (H : run Samples.parse_sample
                (Samples.question
                 ++ [Submit;
                     Settled 0 (Resolved (Samples.chat_reply Samples.reply_json))])
                init
              = Some (Samples.world_of
                        (Samples.question
                         ++ [Submit;
                             Settled 0
                               (Resolved (Samples.chat_reply Samples.reply_json))])))
    by (vm_compute; reflexivity).
  split; [exact H|]. split; [vm_compute; reflexivity|].
  exact (proj2 (proj2 (speak_one_utterance Samples.parse_sample)) _ _ H).
Defined.

(** ** The stored image *)

Lemma handleSubmit_frame (w : World) :
  let w' := exec_all (handleSubmit w) w in
  originalImage w' = originalImage w ∧ displayImage w' = displayImage w
  ∧ currentRole w' = currentRole w ∧ voices w' = voices w
  ∧ synth w' = synth w ∧ readers w' = readers w.
Proof.
  unfold handleSubmit. destruct (guard_fails w); [by destruct w|].
  destruct w as [oi di p cr il er vs sy fl rd se]; simpl.
  destruct cr as [role|]; [destruct (no_role (Some role))|];
    destruct oi; done.
Qed.

Lemma handleRoleReset_spec (w : World) (img : EncodedImage) :
  originalImage w = Some img →
  let w' := exec_all (handleRoleReset w) w in
  currentRole w' = None ∧ error w' = None
  ∧ displayImage w' = Some (dataURL (mimeType img) (base64 img))
  ∧ originalImage w' = Some img.
Proof. unfold handleRoleReset. destruct w; simpl. by intros ->. Qed.

Section StoredImage.

Variable JSON_parse : string -> option JValue.

Lemma step_original_image (w w' : World) (ev : Event) :
  step JSON_parse w ev = Some w' → is_read_done ev = false →
  originalImage w' = originalImage w.
Proof.
  intros Hstep Hev. destruct ev; simpl in Hstep; try done.
  - destruct (upload_rendered w); [|done]. simplify_eq.
    destruct file; by destruct w.
  - destruct (_ && _); [|done]. simplify_eq. by destruct w.
  - destruct (_ && _); [|done]. simplify_eq.
    by destruct (handleSubmit_frame w) as [? _].
  - destruct (inflight w !! i) as [[req k]|]; [|done]. simpl in Hstep.
    simplify_eq.
    destruct (resume_frame JSON_parse k o
                (with_inflight (delete i (inflight w)) w)) as [-> _].
    by destruct w.
  - destruct (change_role_rendered w); [|done]. simplify_eq.
    unfold handleRoleReset. destruct w as [[img|] ? ? ? ? ? ? ? ? ? ?]; done.
  - simplify_eq. by destruct w.
  - simplify_eq. by destruct w.
Qed.

Lemma run_original_image (evs : list Event) (w w' : World) :
  run JSON_parse evs w = Some w' →
  forallb (λ ev, negb (is_read_done ev)) evs = true →
  originalImage w' = originalImage w.
Proof.
  revert w. induction evs as [|ev evs IH]; intros w Hrun Hevs; simpl in *.
  - by simplify_eq.
  - apply andb_true_iff in Hevs as [Hev Hevs]. apply negb_true_iff in Hev.
    destruct (step JSON_parse w ev) as [w1|] eqn:Hs; [|done]. simpl in Hrun.
    rewrite (IH _ Hrun Hevs). by eapply step_original_image.
Qed.

(** A completed read stores the encoded file and displays it. *)
Lemma read_done_stores (w w' : World) (i : nat) (r : string) :
  step JSON_parse w (ReadDone i (Some r)) = Some w' →
  ∃ f, readers w !! i = Some f
       ∧ originalImage w' =
         Some {| base64 := Str.split r "," !! 1; mimeType := file_type f |}
       ∧ displayImage w' =
         Some (dataURL (file_type f) (Str.split r "," !! 1)).
Proof.
  simpl. destruct (readers w !! i) as [f|]; [|done]. simpl. intros ?.
  simplify_eq. exists f. by destruct w.
Qed.

(** C8. A submission and its continuation leave [originalImage] as it is,
    so after an upload and any number of transforms, chat turns and resets,
    "Change Role" clears the role and displays the uploaded photo again, the
    data URL built from the unchanged [originalImage]. *)
Theorem original_image_preserved :
  (∀ w w', step JSON_parse w Submit = Some w' →
           originalImage w' = originalImage w)
  ∧ (∀ w i o w', step JSON_parse w (Settled i o) = Some w' →
                 originalImage w' = originalImage w)
  ∧ (∀ w img, originalImage w = Some img →
       let w' := exec_all (handleRoleReset w) w in
       currentRole w' = None
       ∧ displayImage w' = Some (dataURL (mimeType img) (base64 img))
       ∧ originalImage w' = Some img)
  ∧ (∀ w i r w1 evs w2 w3,
       step JSON_parse w (ReadDone i (Some r)) = Some w1 →
       run JSON_parse evs w1 = Some w2 →
       forallb (λ ev, negb (is_read_done ev)) evs = true →
       step JSON_parse w2 ChangeRole = Some w3 →
       currentRole w3 = None
       ∧ displayImage w3 = displayImage w1
       ∧ originalImage w3 = originalImage w1).
Proof.
  split; [|split; [|split]].
  - intros w w' H. by eapply step_original_image.
  - intros w i o w' H. by eapply step_original_image.
  - intros w img H.
    by destruct (handleRoleReset_spec w img H) as (? & _ & ? & ?).
  - intros w i r w1 evs w2 w3 Hread Hrun Hevs Hreset.
    destruct (read_done_stores _ _ _ _ Hread) as (f & _ & Hoi & Hdi).
    pose proof (run_original_image _ _ _ Hrun Hevs) as Hkeep.
    rewrite Hoi in Hkeep. unfold step in Hreset.
    destruct (change_role_rendered w2); [|done]. injection Hreset as <-.
    destruct (handleRoleReset_spec w2 _ Hkeep) as (Hcr & _ & Hd & Ho).
    rewrite Hdi, Hoi. exact (conj Hcr (conj Hd Ho)).
Qed.

End StoredImage.

Lemma original_image_preserved_witness :
  step Samples.parse_sample (Samples.world_of Samples.selected)
    (ReadDone 0 (Some Samples.photo_url))
  = Some (Samples.world_of Samples.upload)
  ∧ run Samples.parse_sample Samples.role_play
      (Samples.world_of Samples.upload)
    = Some (Samples.world_of Samples.become_king)
  ∧ forallb (λ ev, negb (is_read_done ev)) Samples.role_play = true
  ∧ step Samples.parse_sample (Samples.world_of Samples.become_king) ChangeRole
    = Some (Samples.world_of (Samples.become_king ++ [ChangeRole]))
  ∧ displayImage (Samples.world_of Samples.become_king)
    = Some "data:image/png;base64,BBBB"
  ∧ displayImage (Samples.world_of Samples.upload) = Some Samples.photo_url
  ∧ displayImage (Samples.world_of (Samples.become_king ++ [ChangeRole]))
    = displayImage (Samples.world_of Samples.upload).
Proof.
  assert (H1 : step Samples.parse_sample (Samples.world_of Samples.selected)
                 (ReadDone 0 (Some Samples.photo_url))
               = Some (Samples.world_of Samples.upload))
    by (vm_compute; reflexivity).
  assert (H2 : run Samples.parse_sample Samples.role_play
                 (Samples.world_of Samples.upload)
               = Some (Samples.world_of Samples.become_king))
    by (vm_compute; reflexivity).
  assert (H3 : forallb (λ ev, negb (is_read_done ev)) Samples.role_play = true)
    by reflexivity.
  assert (H4 : step Samples.parse_sample
                 (Samples.world_of Samples.become_king) ChangeRole
               = Some (Samples.world_of (Samples.become_king ++ [ChangeRole])))
    by (vm_compute; reflexivity).
  split; [exact H1|]. split; [exact H2|]. split; [exact H3|].
  split; [exact H4|]. split; [vm_compute; reflexivity|].
  split; [vm_compute; reflexivity|].
  exact (proj1 (proj2 (proj2 (proj2 (proj2
           (original_image_preserved Samples.parse_sample)))
           _ _ _ _ _ _ _ H1 H2 H3 H4))).
Defined.

(** ** Uploads *)

Lemma handleImageChange_spec (w : World) (f : File) :
  let w' := exec_all (handleImageChange (Some f)) w in
  currentRole w' = None ∧ prompt w' = "" ∧ error w' = None
  ∧ originalImage w' = originalImage w ∧ inflight w' = inflight w
  ∧ readers w' = readers w ++ [f].
Proof. by destruct w. Qed.

Section Uploads.

Variable JSON_parse : string -> option JValue.

(** The end of a read leaves the role alone. *)
Lemma read_done_role (w w' : World) (i : nat) (r : string) :
  step JSON_parse w (ReadDone i (Some r)) = Some w' →
  currentRole w' = currentRole w.
Proof.
  simpl. destruct (readers w !! i) as [f|]; [|done]. simpl. intros ?.
  simplify_eq. by destruct w.
Qed.

(** Without a role and without a request in flight, only a submission can
    bring a role about. *)
Lemma step_no_role (w w' : World) (ev : Event) :
  step JSON_parse w ev = Some w' → is_submit ev = false →
  currentRole w = None → inflight w = [] →
  currentRole w' = None ∧ inflight w' = [].
Proof.
  intros Hstep Hev Hcr Hfl. destruct ev; simpl in Hstep; try done.
  - destruct (upload_rendered w); [|done]. simplify_eq.
    destruct file; destruct w; simpl in *; by subst.
  - destruct (readers w !! i) as [f|]; [|done]. simpl in Hstep. simplify_eq.
    destruct result; destruct w; simpl in *; by subst.
  - destruct (_ && _); [|done]. simplify_eq. destruct w; simpl in *; by subst.
  - rewrite Hfl in Hstep. by destruct i.
  - destruct (change_role_rendered w); [|done]. simplify_eq.
    unfold handleRoleReset.
    destruct w as [[img|] ? ? ? ? ? ? ? ? ? ?]; simpl in *; by subst.
  - simplify_eq. destruct w; simpl in *; by subst.
  - simplify_eq. destruct w; simpl in *; by subst.
Qed.

Lemma run_no_role (evs : list Event) (w w' : World) :
  run JSON_parse evs w = Some w' →
  forallb (λ ev, negb (is_submit ev)) evs = true →
  currentRole w = None → inflight w = [] →
  currentRole w' = None ∧ inflight w' = [].
Proof.
  revert w. induction evs as [|ev evs IH]; intros w Hrun Hevs Hcr Hfl;
    simpl in *.
  - by simplify_eq.
  - apply andb_true_iff in Hevs as [Hev Hevs]. apply negb_true_iff in Hev.
    destruct (step JSON_parse w ev) as [w1|] eqn:Hs; [|done]. simpl in Hrun.
    destruct (step_no_role _ _ _ Hs Hev Hcr Hfl) as [Hcr1 Hfl1].
    by apply (IH w1).
Qed.

(** C9, as amended.  Given a file, [handleImageChange] clears the role, the
    prompt and the error message, whatever they were, and only then starts
    the read; when that read ends, the new image is stored and the role is
    still cleared.  Provided no request was in flight at the change event,
    the role stays cleared until the next submission: the next submission
    that passes the guard, whether the read has ended or not, is an image
    transform of the image stored at that moment. *)
Theorem upload_resets_conversation (w0 : World) (f : File) :
  let w1 := exec_all (handleImageChange (Some f)) w0 in
  (currentRole w1 = None ∧ prompt w1 = "" ∧ error w1 = None
   ∧ originalImage w1 = originalImage w0 ∧ readers w1 = readers w0 ++ [f])
  ∧ (∀ r w2,
       step JSON_parse w1 (ReadDone (length (readers w0)) (Some r)) = Some w2 →
       originalImage w2 =
       Some {| base64 := Str.split r "," !! 1; mimeType := file_type f |}
       ∧ currentRole w2 = None)
  ∧ (inflight w0 = [] →
     ∀ evs w2 w3,
       run JSON_parse evs w1 = Some w2 →
       forallb (λ ev, negb (is_submit ev)) evs = true →
       guard_fails w2 = false →
       step JSON_parse w2 Submit = Some w3 →
       ∃ img, originalImage w2 = Some img
              ∧ sent w3 = sent w2
                          ++ [ImageTransform img
                                (transform_instruction (prompt w2))]).
Proof.
  cbv zeta.
  destruct (handleImageChange_spec w0 f) as (Hcr & Hp & He & Ho & Hfl & Hrd).
  cbv zeta in Hcr, Hp, He, Ho, Hfl, Hrd.
  split; [done|]. split.
  - intros r w2 Hstep.
    destruct (read_done_stores JSON_parse _ _ _ _ Hstep) as (f' & Hf' & Hoi & _).
    rewrite Hrd, list_lookup_middle in Hf' by done. injection Hf' as <-.
    split; [done|]. by rewrite (read_done_role _ _ _ _ Hstep).
  - intros Hnone evs w2 w3 Hrun Hevs Hg Hsub. rewrite Hnone in Hfl.
    destruct (run_no_role _ _ _ Hrun Hevs Hcr Hfl) as [Hcr2 _].
    pose proof Hg as Hg'. apply guard_passes_iff in Hg' as [_ [img Himg]].
    exists img. split; [done|].
    unfold step in Hsub. destruct (_ && _); [|done]. injection Hsub as <-.
    rewrite (handleSubmit_transform _ _ Hg Himg); [by destruct w2|].
    by rewrite Hcr2.
Qed.

End Uploads.

Lemma upload_resets_conversation_witness :
  currentRole (Samples.world_of Samples.become_king) = Some "king"
  ∧ inflight (Samples.world_of Samples.become_king) = []
  ∧ run Samples.parse_sample
      [ReadDone 0 (Some Race.second_url); Typing "queen"] Race.changed
    = Some (Race.after Race.changed
              [ReadDone 0 (Some Race.second_url); Typing "queen"])
  ∧ forallb (λ ev, negb (is_submit ev))
      [ReadDone 0 (Some Race.second_url); Typing "queen"] = true
  ∧ guard_fails (Race.after Race.changed
                   [ReadDone 0 (Some Race.second_url); Typing "queen"])
    = false
  ∧ step Samples.parse_sample
      (Race.after Race.changed
         [ReadDone 0 (Some Race.second_url); Typing "queen"]) Submit
    = Some (Race.after Race.changed
              [ReadDone 0 (Some Race.second_url); Typing "queen"; Submit])
  ∧ originalImage (Race.after Race.changed
                     [ReadDone 0 (Some Race.second_url); Typing "queen"])
    = Some Race.second_photo
  ∧ ∃ img,
      originalImage (Race.after Race.changed
                       [ReadDone 0 (Some Race.second_url); Typing "queen"])
      = Some img
      ∧ sent (Race.after Race.changed
                [ReadDone 0 (Some Race.second_url); Typing "queen"; Submit])
        = sent (Race.after Race.changed
                  [ReadDone 0 (Some Race.second_url); Typing "queen"])
          ++ [ImageTransform img
                (transform_instruction
                   (prompt (Race.after Race.changed
                              [ReadDone 0 (Some Race.second_url);
                               Typing "queen"])))].
Proof.
  assert (H0 : inflight (Samples.world_of Samples.become_king) = [])
    by (vm_compute; reflexivity).
  assert (H1 : run Samples.parse_sample
                 [ReadDone 0 (Some Race.second_url); Typing "queen"]
                 (exec_all (handleImageChange (Some Race.jpeg))
                    (Samples.world_of Samples.become_king))
               = Some (Race.after Race.changed
                         [ReadDone 0 (Some Race.second_url); Typing "queen"]))
    by (vm_compute; reflexivity).
  assert (H2 : forallb (λ ev, negb (is_submit ev))
                 [ReadDone 0 (Some Race.second_url); Typing "queen"] = true)
    by reflexivity.
  assert (H3 : guard_fails
                 (Race.after Race.changed
                    [ReadDone 0 (Some Race.second_url); Typing "queen"])
               = false)
    by (vm_compute; reflexivity).
  assert (H4 : step Samples.parse_sample
                 (Race.after Race.changed
                    [ReadDone 0 (Some Race.second_url); Typing "queen"]) Submit
               = Some (Race.after Race.changed
                         [ReadDone 0 (Some Race.second_url); Typing "queen";
                          Submit]))
    by (vm_compute; reflexivity).
  split; [vm_compute; reflexivity|]. split; [exact H0|].
  split; [exact H1|]. split; [exact H2|]. split; [exact H3|].
  split; [exact H4|]. split; [vm_compute; reflexivity|].
  exact (proj2 (proj2 (upload_resets_conversation Samples.parse_sample
                         (Samples.world_of Samples.become_king) Race.jpeg))
           H0 _ _ _ H1 H2 H3 H4).
Defined.

(** C9, as stated, fails.  Two files are chosen in a row; the first is read
    and transformed into a king; then the read of the second ends and its
    image is stored.  The conversation is not reset: the role is still the
    king, and the submission that follows this upload is a chat turn. *)
Lemma late_read_keeps_role :
  run Samples.parse_sample Race.late_read init
  = Some (Samples.world_of Race.late_read)
  ∧ originalImage (Samples.world_of Race.late_read) = Some Race.second_photo
  ∧ currentRole (Samples.world_of Race.late_read) = Some "king"
  ∧ guard_fails (Samples.world_of Race.late_read) = false
  ∧ requests_of (handleSubmit (Samples.world_of Race.late_read))
    = [ChatTurn (chat_instruction "king") "Who are you?"].
Proof.
  split; [vm_compute; reflexivity|]. split; [vm_compute; reflexivity|].
  split; [vm_compute; reflexivity|]. split; vm_compute; reflexivity.
Qed.

Section Replaced.

Variable JSON_parse : string -> option JValue.

(** C4, as amended.  [originalImage] is produced by a file upload: a completed
    read stores the encoding of its file in place of whatever was stored, and
    no other event changes it.  A successful image transform replaces
    [displayImage] and sets the role; it leaves [originalImage] as it is. *)
Theorem original_image_from_upload :
  (∀ w i r w',
     step JSON_parse w (ReadDone i (Some r)) = Some w' →
     ∃ f, readers w !! i = Some f
          ∧ originalImage w' =
            Some {| base64 := Str.split r "," !! 1;
                    mimeType := file_type f |})
  ∧ (∀ w ev w',
       step JSON_parse w ev = Some w' →
       (∀ i r, ev ≠ ReadDone i (Some r)) →
       originalImage w' = originalImage w)
  ∧ (∀ w i req cp r d w',
       inflight w !! i = Some (req, AfterTransform cp) →
       inline_image r = Some d →
       step JSON_parse w (Settled i (Resolved r)) = Some w' →
       originalImage w' = originalImage w
       ∧ displayImage w' =
         Some (dataURL (JS.tpl (id_mimeType d)) (id_data d))
       ∧ currentRole w' = Some cp).
Proof.
  split; [|split].
  - intros w i r w' H.
    destruct (read_done_stores JSON_parse _ _ _ _ H) as (f & ? & ? & _).
    eauto.
  - intros w ev w' H Hev.
    destruct (is_read_done ev) eqn:Hrd;
      [|by eapply (step_original_image JSON_parse)].
    destruct ev as [|i [r|]| | | | | |]; try done; [by destruct (Hev i r)|].
    simpl in H. destruct (readers w !! i); [|done]. simpl in H. simplify_eq.
    by destruct w.
  - intros w i req cp r d w' Hk Hd H.
    split; [by eapply (step_original_image JSON_parse)|].
    simpl in H. rewrite Hk in H. simpl in H. injection H as <-.
    unfold resume. rewrite (after_transform_success _ _ _ Hd).
    by destruct w.
Qed.

End Replaced.

Lemma original_image_from_upload_witness :
  inflight (Samples.world_of (Samples.upload ++ [Typing "king"; Submit])) !! 0
  = Some (ImageTransform Samples.photo (transform_instruction "king"),
          AfterTransform "king")
  ∧ inline_image Samples.transformed
    = Some {| id_data := Some "BBBB"; id_mimeType := Some "image/png" |}
  ∧ step Samples.parse_sample
      (Samples.world_of (Samples.upload ++ [Typing "king"; Submit]))
      (Settled 0 (Resolved Samples.transformed))
    = Some (Samples.world_of Samples.become_king)
  ∧ originalImage (Samples.world_of Samples.become_king)
    = originalImage
        (Samples.world_of (Samples.upload ++ [Typing "king"; Submit])).
Proof.
  assert (H1 : inflight (Samples.world_of
                           (Samples.upload ++ [Typing "king"; Submit])) !! 0
               = Some (ImageTransform Samples.photo
                         (transform_instruction "king"),
                       AfterTransform "king"))
    by (vm_compute; reflexivity).
  assert (H2 : inline_image Samples.transformed
               = Some {| id_data := Some "BBBB";
                         id_mimeType := Some "image/png" |})
    by reflexivity.
  assert (H3 : step Samples.parse_sample
                 (Samples.world_of (Samples.upload ++ [Typing "king"; Submit]))
                 (Settled 0 (Resolved Samples.transformed))
               = Some (Samples.world_of Samples.become_king))
    by (vm_compute; reflexivity).
  split; [exact H1|]. split; [exact H2|]. split; [exact H3|].
  exact (proj1 (proj2 (proj2
           (original_image_from_upload Samples.parse_sample))
           _ _ _ _ _ _ _ H1 H2 H3)).
Defined.

(** C4, as stated, fails: after the upload of [photo] and a successful
    transform into a king, the displayed image is the transformed one while
    the stored image is still the uploaded photo, not the image of the
    response. *)
Lemma transform_keeps_original_image :
  run Samples.parse_sample Samples.become_king init
  = Some (Samples.world_of Samples.become_king)
  ∧ currentRole (Samples.world_of Samples.become_king) = Some "king"
  ∧ displayImage (Samples.world_of Samples.become_king)
    = Some "data:image/png;base64,BBBB"
  ∧ originalImage (Samples.world_of Samples.become_king) = Some Samples.photo
  ∧ originalImage (Samples.world_of Samples.become_king)
    ≠ Some {| base64 := Some "BBBB"; mimeType := "image/png" |}.
Proof.
  split; [vm_compute; reflexivity|]. split; [vm_compute; reflexivity|].
  split; [vm_compute; reflexivity|]. split; [vm_compute; reflexivity|].
  vm_compute. discriminate.
Qed.

(** ** Failures *)

Section Failures.

Variable JSON_parse : string -> option JValue.





End Failures.



(** ** Voice selection *)

Lemma startsWith_includes (s p : string) :
  Str.startsWith s p = true → Str.includes s p = true.
Proof. destruct s; simpl; intros ->; done. Qed.

Lemma includes_cons (c : ascii) (s sub : string) :
  Str.includes s sub = true → Str.includes (String c s) sub = true.
Proof. simpl. intros ->. apply orb_true_r. Qed.

(** A name that contains "female" contains "male". *)
Lemma includes_female_male (s : string) :
  Str.includes s "female" = true → Str.includes s "male" = true.
Proof.
  induction s as [|c s IH]; [done|].
  intros H. apply includes_cons.
  change (Str.startsWith (String c s) "female" || Str.includes s "female"
          = true) in H.
  apply orb_true_iff in H as [H|H]; [|by apply IH].
  simpl in H. apply andb_true_iff in H as [_ H].
  destruct s as [|e s]; [done|].
  apply includes_cons, startsWith_includes.
  simpl in H. by apply andb_true_iff in H as [_ H].
Qed.

(** Every voice that passes the test for the female hint passes the test for
    the male hint. *)
Lemma female_voice_matches_male (v : Voice) :
  gender_matches female v = true → gender_matches male v = true.
Proof. apply includes_female_male. Qed.

Lemma or_else_some {A} (a b : option A) (x : A) :
  or_else a b = Some x → a = Some x ∨ b = Some x.
Proof. destruct a; simpl; auto. Qed.

Lemma head_In {A} (l : list A) (x : A) : head l = Some x → In x l.
Proof. destruct l; simpl; [done|]. intros [= ->]. by left. Qed.

Lemma by_default_In (lv : list Voice) (v : Voice) :
  by_default lv = Some v → In v lv.
Proof.
  unfold by_default. intros H. apply or_else_some in H as [H|H];
    [by apply find_some in H as [? _]|].
  apply or_else_some in H as [H|H];
    [by apply find_some in H as [? _] | by apply head_In].
Qed.

Lemma by_gender_Some (lv : list Voice) (g : Gender) (v : Voice) :
  by_gender lv g = Some v → In v lv ∧ gender_matches g v = true.
Proof.
  unfold by_gender. intros H.
  assert (Hsel : or_else (find (λ x, negb (v_localService x))
                            (List.filter (gender_matches g) lv))
                         (head (List.filter (gender_matches g) lv)) = Some v →
                 In v lv ∧ gender_matches g v = true).
  { intros Hx. apply or_else_some in Hx as [Hx|Hx].
    - apply find_some in Hx as [Hx _]. by apply filter_In in Hx.
    - apply head_In in Hx. by apply filter_In in Hx. }
  destruct g; [| |done].
  all: cbv zeta in H; revert H Hsel.
  all: destruct (List.filter _ lv); [done|]; intros H Hsel; by apply Hsel.
Qed.

Lemma by_gender_None (lv : list Voice) (g : Gender) (v0 : Voice) :
  g ≠ neutral → In v0 lv → gender_matches g v0 = true →
  by_gender lv g ≠ None.
Proof.
  intros Hg Hin Hm. unfold by_gender.
  assert (Hv0 : In v0 (List.filter (gender_matches g) lv))
    by (by apply filter_In).
  destruct g; [| |done].
  all: destruct (List.filter _ lv) as [|x l]; [done|].
  all: cbv beta iota zeta; unfold or_else.
  all: by destruct (find _ (x :: l)).
Qed.

(** The voice assigned to an utterance is one of the candidates. *)
Lemma voice_for_In (lv : list Voice) (g : Gender) (v : Voice) :
  voice_for lv g = Some v → In v lv.
Proof.
  unfold voice_for, select_voice. destruct lv as [|v0 lv0]; [done|].
  intros H. apply or_else_some in H as [H|H].
  - by apply by_gender_Some in H as [? _].
  - by apply by_default_In.
Qed.

(** When a voice of the language passes the test for the hint, so does the
    voice that is selected. *)
Lemma voice_for_gender (lv : list Voice) (g : Gender) (v0 v : Voice) :
  g ≠ neutral → In v0 lv → gender_matches g v0 = true →
  voice_for lv g = Some v → gender_matches g v = true.
Proof.
  intros Hg Hin Hm. unfold voice_for, select_voice.
  destruct lv as [|v1 lv1]; [done|].
  destruct (by_gender (v1 :: lv1) g) as [x|] eqn:Hx.
  - simpl. intros [= <-]. by apply by_gender_Some in Hx as [_ ?].
  - by destruct (by_gender_None _ _ _ Hg Hin Hm).
Qed.

(** The utterance of a well-formed reply: the text as received, the language
    as received, and a voice among the installed ones of that language. *)
Lemma speak_reply (vs : list Voice) (text : JValue) (l : string) (g : Gender) :
  ∃ u, speak vs text (JStr l) g = ([synthCancel; synthSpeak u], Normal)
       ∧ u_text u = text ∧ u_lang u = JStr l
       ∧ ∀ v, u_voice u = Some v → In v vs ∧ lang_matches l v = true.
Proof.
  rewrite speak_string_lang. eexists. split; [done|]. simpl.
  split; [done|]. split; [done|]. intros v H.
  apply voice_for_In in H. by apply filter_In in H.
Qed.

(** C5, at a failing input.  The role is "king", for which the table gives
    the male hint; Chrome's two British voices are installed, both of the
    language of the reply; the one that is handed to the synthesizer is the
    female voice. *)
Theorem king_speaks_with_female_voice :
  run Samples.parse_sample Samples.answered init
  = Some (Samples.world_of Samples.answered)
  ∧ currentRole (Samples.world_of Samples.asked) = Some "king"
  ∧ gender_of_role "king" = male
  ∧ voices (Samples.world_of Samples.asked)
    = [Samples.uk_female; Samples.uk_male]
  ∧ lang_matches "en-GB" Samples.uk_male = true
  ∧ synth (Samples.world_of Samples.answered)
    = [ {| u_text := JStr "I am the king."; u_lang := JStr "en-GB";
           u_voice := Some Samples.uk_female |} ].
Proof.
  split; [vm_compute; reflexivity|]. split; [vm_compute; reflexivity|].
  split; [vm_compute; reflexivity|]. split; [vm_compute; reflexivity|].
  split; vm_compute; reflexivity.
Qed.

(** ** The proxy *)

Lemma roleVoices_entries (k id : string) :
  roleVoices !! k = Some id →
  In (k, id)
    [ ("king", "male_deep_indian"); ("police", "male_strict");
      ("farmer", "male_simple"); ("doctor", "male_doctor");
      ("queen", "female_royal"); ("teacher", "female_teacher");
      ("dancer", "female_excited"); ("singer", "female_singer") ].
Proof.
  unfold roleVoices. intros H. apply elem_of_list_to_map_2 in H.
  by apply list_elem_of_In.
Qed.

Lemma voice_or_default_own (key : string) :
  Proxy.inherited key = false →
  Proxy.voice_or_default key =
  Proxy.VoiceName (default "default_voice" (roleVoices !! key)).
Proof.
  intros Hk. unfold Proxy.voice_or_default.
  destruct (roleVoices !! key) as [id|] eqn:Hid; [|by rewrite Hk].
  apply roleVoices_entries in Hid.
  repeat (destruct Hid as [[= _ <-]|Hid]; [reflexivity|]). done.
Qed.

Set Warnings "-clear-no-such-hyp".

Lemma talk_request_body (key : option string) (text : JValue)
    (v : Proxy.VoiceId) :
  ∃ top,
    Proxy.body (Proxy.talk_request key text v) = JObj top
    ∧ top !! "script" = Some (JObj (Proxy.script_of (Proxy.talk_request key text v)))
    ∧ top !! "source_url" = Some (JStr "https://....avatar-image-url")
    ∧ dom top = {[ "script"; "source_url" ]}
    ∧ Proxy.script_of (Proxy.talk_request key text v) !! "type"
      = Some (JStr "text")
    ∧ Proxy.script_of (Proxy.talk_request key text v) !! "input"
      = Proxy.member text
    ∧ Proxy.script_of (Proxy.talk_request key text v) !! "voice_id"
      = Proxy.voice_member v
    ∧ dom (Proxy.script_of (Proxy.talk_request key text v))
      ⊆ {[ "type"; "input"; "voice_id" ]}.
Proof.
  unfold Proxy.script_of, Proxy.talk_request. cbn [Proxy.body].
  eexists. split; [reflexivity|].
  rewrite lookup_insert_ne, lookup_insert_eq by done.
  split; [done|]. split; [by rewrite lookup_insert_eq|].
  split; [rewrite !dom_insert_L, dom_empty_L; set_solver|].
  unfold Proxy.set_member.
  destruct (Proxy.voice_member v), (Proxy.member text).
  all: rewrite ?lookup_insert_eq, ?lookup_insert_ne, ?lookup_insert_eq,
         ?lookup_insert_ne, ?lookup_insert_eq, ?lookup_empty by done.
  all: rewrite ?dom_insert_L, dom_empty_L.
  all: repeat split; set_solver.
Qed.

(** C3, as amended.  For a body whose role is absent, or a string that in
    lower case is not the name of a member of [Object.prototype], the handler
    sends one POST to the talks address with the bearer key, whose script
    holds the type "text", the text of the body, and the voice that
    [roleVoices] gives for the lower-cased role, "default_voice" when it
    gives none.  It answers with status 200 and the upstream JSON written
    anew, and with status 500 exactly when something raised: the role has no
    [toLowerCase], [fetch] rejected, or the upstream body was not JSON.
    Without a body it sends nothing and answers 500. *)
Theorem talk_contract (key : option string) (b : Proxy.Body)
    (up : Proxy.Upstream) :
  (∀ id,
     Proxy.b_role b = JUndefined ∧ id = "default_voice"
     ∨ Proxy.b_role b = JNull ∧ id = "default_voice"
     ∨ (∃ r, Proxy.b_role b = JStr r
             ∧ Proxy.inherited (Str.toLowerCase r) = false
             ∧ id = default "default_voice" (roleVoices !! Str.toLowerCase r)) →
     ∃ req top,
       (Proxy.talk key (Some b) up).1 = [req]
       ∧ Proxy.url req = "https://api.d-id.com/talks"
       ∧ Proxy.method req = "POST"
       ∧ Proxy.authorization req = "Bearer " +:+ JS.tpl key
       ∧ Proxy.content_type req = "application/json"
       ∧ Proxy.body req = JObj top
       ∧ top !! "script" = Some (JObj (Proxy.script_of req))
       ∧ top !! "source_url" = Some (JStr "https://....avatar-image-url")
       ∧ dom top = {[ "script"; "source_url" ]}
       ∧ Proxy.script_of req !! "type" = Some (JStr "text")
       ∧ Proxy.script_of req !! "input" = Proxy.member (Proxy.b_text b)
       ∧ (∀ t, Proxy.b_text b = JStr t →
               Proxy.script_of req !! "input" = Some (JStr t))
       ∧ Proxy.script_of req !! "voice_id" = Some (JStr id)
       ∧ dom (Proxy.script_of req) ⊆ {[ "type"; "input"; "voice_id" ]})
  ∧ (∀ data, up = Proxy.Json data → data ≠ JUndefined →
       Proxy.voiceId_of (Proxy.b_role b) ≠ None →
       (Proxy.talk key (Some b) up).2 =
       {| Proxy.status := 200; Proxy.payload := Proxy.written data |}
       ∧ (∀ s, data = JStr s → Proxy.written data = data)
       ∧ (data = JNull → Proxy.written data = data)
       ∧ (∀ c, data = JBool c → Proxy.written data = data)
       ∧ (∀ x, data = JNum x →
               PrimFloat.is_nan x || PrimFloat.is_infinity x
               || PrimFloat.is_zero x = false →
               Proxy.written data = data))
  ∧ (Proxy.status (Proxy.talk key (Some b) up).2 = 500 ↔
     Proxy.voiceId_of (Proxy.b_role b) = None
     ∨ up = Proxy.FetchRejects ∨ up = Proxy.BodyNotJson)
  ∧ (Proxy.status (Proxy.talk key (Some b) up).2 = 200
     ∨ Proxy.status (Proxy.talk key (Some b) up).2 = 500)
  ∧ length (Proxy.talk key (Some b) up).1 ≤ 1
  ∧ Proxy.talk key None up = ([], Proxy.something_went_wrong).
Proof.
  split; [|split; [|split; [|split; [|split]]]].
  - intros id Hrole.
    assert (Hv : Proxy.voiceId_of (Proxy.b_role b) = Some (Proxy.VoiceName id)).
    { destruct Hrole as [[-> ->]|[[-> ->]|(r & -> & Hr & ->)]];
        [reflexivity..|].
      simpl. by rewrite (voice_or_default_own _ Hr). }
    unfold Proxy.talk. rewrite Hv.
    destruct (talk_request_body key (Proxy.b_text b) (Proxy.VoiceName id))
      as (top & H1 & H2 & H3 & H4 & H5 & H6 & H7 & H8).
    exists (Proxy.talk_request key (Proxy.b_text b) (Proxy.VoiceName id)), top.
    split; [by destruct up|].
    do 4 (split; [reflexivity|]).
    split; [done|]. split; [done|]. split; [done|]. split; [done|].
    split; [done|]. split; [done|].
    split; [by intros t Ht; rewrite H6, Ht|]. done.
  - intros data -> _ Hv. unfold Proxy.talk.
    destruct (Proxy.voiceId_of _); [|done]. split; [done|].
    split; [by intros s ->|]. split; [by intros ->|].
    split; [by intros c ->|]. intros x -> Hx. simpl.
    apply orb_false_iff in Hx as [Hx ->]. by rewrite Hx.
  - unfold Proxy.talk. destruct (Proxy.voiceId_of _) as [v|]; simpl.
    + destruct up; simpl; split; try done; auto.
      by intros [?|[?|?]].
    + split; auto.
  - unfold Proxy.talk.
    destruct (Proxy.voiceId_of _); [destruct up|]; simpl; auto.
  - unfold Proxy.talk.
    destruct (Proxy.voiceId_of _); [destruct up|]; simpl; lia.
  - done.
Qed.

Lemma talk_contract_witness :
  (∃ r, Proxy.b_role {| Proxy.b_text := JStr "Hello";
                        Proxy.b_role := JStr "Queen" |} = JStr r
        ∧ Proxy.inherited (Str.toLowerCase r) = false
        ∧ "female_royal"
          = default "default_voice" (roleVoices !! Str.toLowerCase r))
  ∧ ∃ req,
      (Proxy.talk (Some "secret")
         (Some {| Proxy.b_text := JStr "Hello"; Proxy.b_role := JStr "Queen" |})
         (Proxy.Json (JObj ∅))).1 = [req]
      ∧ Proxy.url req = "https://api.d-id.com/talks"
      ∧ Proxy.script_of req !! "input" = Some (JStr "Hello")
      ∧ Proxy.script_of req !! "voice_id" = Some (JStr "female_royal").
Proof.
  assert (H : ∃ r, Proxy.b_role {| Proxy.b_text := JStr "Hello";
                                   Proxy.b_role := JStr "Queen" |} = JStr r
                   ∧ Proxy.inherited (Str.toLowerCase r) = false
                   ∧ "female_royal"
                     = default "default_voice"
                         (roleVoices !! Str.toLowerCase r)).
  { exists "Queen". split; [reflexivity|]. split; vm_compute; reflexivity. }
  split; [exact H|].
  destruct (proj1 (talk_contract (Some "secret")
                     {| Proxy.b_text := JStr "Hello";
                        Proxy.b_role := JStr "Queen" |}
                     (Proxy.Json (JObj ∅)))
              "female_royal" (or_intror (or_intror H)))
    as (req & top & H1 & H2 & _ & _ & _ & _ & _ & _ & _ & _ & _ & H3 & H4 & _).
  exists req. split; [exact H1|]. split; [exact H2|].
  split; [exact (H3 "Hello" eq_refl) | exact H4].
Defined.

(** C3, as stated, fails.  An upstream body [1e400] is parsed to [Infinity],
    which [res.json] writes as [null]: the answer is not the upstream JSON.
    And for the role "Constructor" the lookup reaches the function that every
    object inherits under that name, which [JSON.stringify] leaves out: the
    request carries no voice, neither one of the table nor the default. *)
Lemma talk_not_verbatim :
  (Proxy.talk None
     (Some {| Proxy.b_text := JStr "Hello"; Proxy.b_role := JStr "queen" |})
     (Proxy.Json (JNum infinity))).2
  = {| Proxy.status := 200; Proxy.payload := JNull |}
  ∧ JNull ≠ JNum infinity
  ∧ roleVoices !! Str.toLowerCase "Constructor" = None
  ∧ (Proxy.script_of <$>
     (Proxy.talk None
        (Some {| Proxy.b_text := JStr "Hello";
                 Proxy.b_role := JStr "Constructor" |})
        (Proxy.Json (JObj ∅))).1)
    = [ {[ "type" := JStr "text"; "input" := JStr "Hello" ]} ].
Proof.
  split; [vm_compute; reflexivity|]. split; [discriminate|].
  split; vm_compute; reflexivity.
Qed.

(** * Further properties *)

(** ** Roles, case and padding *)

Lemma is_ws_lower_char (c : ascii) : Str.is_ws (Str.lower_char c) = Str.is_ws c.
Proof. destruct c as [[] [] [] [] [] [] [] []]; reflexivity. Qed.

Lemma lower_char_idem (c : ascii) :
  Str.lower_char (Str.lower_char c) = Str.lower_char c.
Proof. destruct c as [[] [] [] [] [] [] [] []]; reflexivity. Qed.

Lemma toLowerCase_idem (s : string) :
  Str.toLowerCase (Str.toLowerCase s) = Str.toLowerCase s.
Proof.
  induction s as [|c s IH]; simpl; [done|]. by rewrite lower_char_idem, IH.
Qed.

Lemma toLowerCase_app (a b : string) :
  Str.toLowerCase (a +:+ b) = Str.toLowerCase a +:+ Str.toLowerCase b.
Proof. induction a as [|c a IH]; simpl; [done|]. by rewrite IH. Qed.

Lemma blank_toLowerCase (s : string) :
  Str.blank (Str.toLowerCase s) = Str.blank s.
Proof.
  induction s as [|c s IH]; simpl; [done|]. by rewrite is_ws_lower_char, IH.
Qed.

Lemma trimEnd_app_blank (s p : string) :
  Str.blank p = true → Str.trimEnd (s +:+ p) = Str.trimEnd s.
Proof.
  intros Hp. induction s as [|c s IH]; simpl.
  - by apply trimEnd_empty_iff.
  - by rewrite IH.
Qed.

Lemma trim_app_blank (s p : string) :
  Str.blank p = true → Str.trim (s +:+ p) = Str.trim s.
Proof.
  intros Hp. unfold Str.trim. induction s as [|c s IH].
  - change (Str.trimEnd (Str.trimStart p) = "").
    by rewrite (trimStart_of_blank _ Hp).
  - simpl. destruct (Str.is_ws c); [done|].
    change (Str.trimEnd (String c s +:+ p) = Str.trimEnd (String c s)).
    by apply trimEnd_app_blank.
Qed.

Lemma trim_blank_app (p s : string) :
  Str.blank p = true → Str.trim (p +:+ s) = Str.trim s.
Proof.
  intros Hp. unfold Str.trim. f_equal.
  induction p as [|c p IH]; simpl in *; [done|].
  apply andb_true_iff in Hp as [-> Hp]. by apply IH.
Qed.

(** X1. The gender hint of a role does not depend on the case of its letters
    nor on white space around it. *)
Theorem gender_of_role_normalizes (p1 s p2 : string) :
  Str.blank p1 = true → Str.blank p2 = true →
  gender_of_role (p1 +:+ s +:+ p2) = gender_of_role s
  ∧ gender_of_role (Str.toLowerCase s) = gender_of_role s.
Proof.
  intros H1 H2. unfold gender_of_role. split.
  - rewrite !toLowerCase_app, trim_blank_app, trim_app_blank;
      by rewrite ?blank_toLowerCase.
  - by rewrite toLowerCase_idem.
Qed.

Lemma gender_of_role_normalizes_witness :
  Str.blank "  " = true ∧ Str.blank " " = true
  ∧ gender_of_role ("  " +:+ "Queen" +:+ " ") = gender_of_role "Queen".
Proof.
  split; [reflexivity|]. split; [reflexivity|].
  exact (proj1 (gender_of_role_normalizes "  " "Queen" " " eq_refl eq_refl)).
Defined.

(** ** The language test *)

Lemma startsWith_refl (s : string) : Str.startsWith s s = true.
Proof.
  induction s as [|c s IH]; simpl; [done|]. by rewrite Ascii.eqb_refl.
Qed.

Lemma startsWith_primary (l : string) :
  Str.startsWith l (primary_of l) = true.
Proof.
  unfold primary_of. induction l as [|c l IH]; simpl; [done|].
  destruct (Ascii.eqb c "-"); simpl; [done|].
  destruct (Str.split l "-") as [|h t]; simpl in *;
    rewrite Ascii.eqb_refl; simpl; [by destruct l | done].
Qed.

Lemma lang_matches_primary (l : string) (v : Voice) :
  lang_matches l v = Str.startsWith (v_lang v) (primary_of l).
Proof.
  unfold lang_matches. fold (primary_of l).
  destruct (String.eqb (v_lang v) l) eqn:He; [|done].
  apply String.eqb_eq in He. rewrite He. simpl.
  by rewrite startsWith_primary.
Qed.

(** X3. The test that [speak] applies to a voice is the prefix test alone: a
    voice whose language equals the tag also starts with its primary subtag.
    A tag whose primary subtag is empty admits every voice. *)
Theorem lang_matches_prefix (l : string) (v : Voice) :
  lang_matches l v = Str.startsWith (v_lang v) (primary_of l)
  ∧ (primary_of l = "" → lang_matches l v = true).
Proof.
  split; [apply lang_matches_primary|].
  intros Hp. rewrite lang_matches_primary, Hp. by destruct (v_lang v).
Qed.

Lemma lang_matches_prefix_witness :
  primary_of "" = ""
  ∧ lang_matches "" Samples.uk_male = true.
Proof.
  split; [reflexivity|].
  exact (proj2 (lang_matches_prefix "" Samples.uk_male) eq_refl).
Defined.

(** ** Fenced replies *)

Lemma length_app (a b : string) :
  String.length (a +:+ b) = String.length a + String.length b.
Proof. induction a as [|c a IH]; simpl; [done|]. by rewrite IH. Qed.

Lemma substring_prefix (b c : string) :
  substring 0 (String.length b) (b +:+ c) = b.
Proof.
  induction b as [|x b IH]; simpl; [by destruct c|]. by rewrite IH.
Qed.

Lemma startsWith_app (p s : string) : Str.startsWith (p +:+ s) p = true.
Proof.
  induction p as [|c p IH]; simpl; [by destruct s|].
  by rewrite Ascii.eqb_refl.
Qed.

(** X8. A reply that opens with the fence [```json] loses its first seven and
    its last three characters, whatever the last three are, and is trimmed; a
    fenced reply too short to hold anything yields the empty text; any other
    reply is parsed as it is. *)
Theorem fenced_reply_unwrapped :
  (∀ body tail, String.length tail = 3 →
     jsonString_of ("```json" +:+ body +:+ tail) = Str.trim body)
  ∧ (∀ rest, String.length rest ≤ 3 → jsonString_of ("```json" +:+ rest) = "")
  ∧ (∀ t, Str.startsWith t "```json" = false → jsonString_of t = t).
Proof.
  split; [|split].
  - intros body tail Htail. unfold jsonString_of.
    rewrite startsWith_app. f_equal. unfold Str.slice.
    assert (Hn : Z.of_nat (String.length ("```json" +:+ body +:+ tail))
                 = (10 + Z.of_nat (String.length body))%Z).
    { change ("```json" +:+ body +:+ tail)
        with ("```json" +:+ (body +:+ tail)).
      rewrite !length_app, Htail. simpl. lia. }
    rewrite Hn. change (7 <? 0)%Z with false. change (-3 <? 0)%Z with true.
    cbv iota.
    rewrite Z.min_l, Z.max_l by lia.
    replace (Z.to_nat (10 + Z.of_nat (String.length body) + -3 - 7))
      with (String.length body) by lia.
    change (Z.to_nat 7) with 7.
    change (substring 0 (String.length body) (body +:+ tail) = body).
    apply substring_prefix.
  - intros rest Hrest. unfold jsonString_of.
    rewrite startsWith_app. unfold Str.slice.
    assert (Hn : Z.of_nat (String.length ("```json" +:+ rest))
                 = (7 + Z.of_nat (String.length rest))%Z).
    { rewrite length_app. simpl. lia. }
    rewrite Hn. change (7 <? 0)%Z with false. change (-3 <? 0)%Z with true.
    cbv iota.
    rewrite Z.min_l by lia.
    replace (Z.to_nat (Z.max (7 + Z.of_nat (String.length rest) + -3) 0 - 7))
      with 0 by lia.
    change (Z.to_nat 7) with 7.
    change (Str.trim (substring 0 0 rest) = "").
    by destruct rest.
  - intros t Ht. unfold jsonString_of. by rewrite Ht.
Qed.

Lemma fenced_reply_unwrapped_witness :
  String.length "```" = 3
  ∧ jsonString_of ("```json" +:+ " {} " +:+ "```") = Str.trim " {} "
  ∧ String.length "``" ≤ 3
  ∧ jsonString_of ("```json" +:+ "``") = ""
  ∧ Str.startsWith "Hello there" "```json" = false
  ∧ jsonString_of "Hello there" = "Hello there".
Proof.
  destruct fenced_reply_unwrapped as (H1 & H2 & H3).
  split; [reflexivity|]. split; [exact (H1 " {} " "```" eq_refl)|].
  split; [simpl; lia|]. split; [apply (H2 "``"); simpl; lia|].
  split; [reflexivity|]. exact (H3 "Hello there" eq_refl).
Defined.

(** ** Reading the file *)

Lemma has_char_app (c : ascii) (a b : string) :
  has_char c (a +:+ b) = has_char c a || has_char c b.
Proof.
  induction a as [|x a IH]; simpl; [done|]. by rewrite IH, orb_assoc.
Qed.

Lemma split_whole (s : string) (sep : ascii) :
  has_char sep s = false → Str.split s sep = [s].
Proof.
  induction s as [|c s IH]; simpl; [done|].
  intros H. apply orb_false_iff in H as [-> H]. by rewrite (IH H).
Qed.

Lemma split_at (a b : string) (sep : ascii) :
  has_char sep a = false →
  Str.split (a +:+ String sep b) sep = a :: Str.split b sep.
Proof.
  induction a as [|c a IH]; simpl.
  - intros _. by rewrite Ascii.eqb_refl.
  - intros H. apply orb_false_iff in H as [-> H]. by rewrite (IH H).
Qed.

Lemma app_assoc3 (a b c : string) : a +:+ (b +:+ c) = (a +:+ b) +:+ c.
Proof.
  induction a as [|x a IH]; [done|].
  change (String x (a +:+ (b +:+ c)) = String x ((a +:+ b) +:+ c)).
  by rewrite IH.
Qed.

Lemma split_dataURL (mime d : string) :
  has_char "," mime = false → has_char "," d = false →
  Str.split (dataURL mime (Some d)) "," !! 1 = Some d.
Proof.
  intros Hm Hd. unfold dataURL. simpl JS.tpl.
  change ("data:" +:+ mime +:+ ";base64," +:+ d)
    with ("data:" +:+ (mime +:+ (";base64" +:+ String "," d))).
  rewrite !app_assoc3, split_at, (split_whole d) by
    (by rewrite ?has_char_app, ?Hm).
  done.
Qed.

Section Reading.

Variable JSON_parse : string -> option JValue.

(** X6. When the reader delivers the data URL of the file (its type, then the
    base-64 payload, neither holding a comma), the stored image is the pair
    of payload and type, the displayed image is the reader's URL itself, and
    "Change Role" builds that same URL again.  A result without a comma is
    stored with an undefined payload and displayed as "...;base64,undefined". *)
Theorem upload_round_trip (w w' : World) (i : nat) (f : File) (r : string) :
  readers w !! i = Some f →
  step JSON_parse w (ReadDone i (Some r)) = Some w' →
  (∀ d, r = dataURL (file_type f) (Some d) →
        has_char "," (file_type f) = false → has_char "," d = false →
        originalImage w' = Some {| base64 := Some d; mimeType := file_type f |}
        ∧ displayImage w' = Some r
        ∧ displayImage (exec_all (handleRoleReset w') w') = Some r)
  ∧ (has_char "," r = false →
     originalImage w' = Some {| base64 := None; mimeType := file_type f |}
     ∧ displayImage w' =
       Some ("data:" +:+ file_type f +:+ ";base64,undefined")).
Proof.
  intros Hf Hstep.
  destruct (read_done_stores JSON_parse _ _ _ _ Hstep) as (f' & Hf' & Hoi & Hdi).
  rewrite Hf in Hf'. injection Hf' as <-. split.
  - intros d -> Hm Hd. rewrite (split_dataURL _ _ Hm Hd) in Hoi, Hdi.
    split; [done|]. split; [done|].
    by destruct (handleRoleReset_spec w' _ Hoi) as (_ & _ & ? & _).
  - intros Hr. rewrite (split_whole _ _ Hr) in Hoi, Hdi. done.
Qed.

(** X7. Closing the file picker without a file changes nothing, and a read
    that fails sets the message "Failed to read the image file." and leaves
    both images, the role and the prompt as they were. *)
Theorem upload_failures (w w' : World) :
  (step JSON_parse w (SelectFile None) = Some w' → w' = w)
  ∧ (∀ i, step JSON_parse w (ReadDone i None) = Some w' →
          error w' = Some "Failed to read the image file."
          ∧ originalImage w' = originalImage w
          ∧ displayImage w' = displayImage w
          ∧ currentRole w' = currentRole w ∧ prompt w' = prompt w
          ∧ readers w' = delete i (readers w)).
Proof.
  split.
  - simpl. destruct (upload_rendered w); [|done]. by intros [= <-].
  - intros i. simpl. destruct (readers w !! i); [|done]. simpl.
    intros [= <-]. by destruct w.
Qed.

End Reading.

Lemma upload_round_trip_witness :
  readers (Samples.world_of Samples.selected) !! 0 = Some Samples.png
  ∧ step Samples.parse_sample (Samples.world_of Samples.selected)
      (ReadDone 0 (Some Samples.photo_url))
    = Some (Samples.world_of Samples.upload)
  ∧ Samples.photo_url = dataURL (file_type Samples.png) (Some "AAAA")
  ∧ has_char "," (file_type Samples.png) = false
  ∧ has_char "," "AAAA" = false
  ∧ displayImage (Samples.world_of Samples.upload) = Some Samples.photo_url.
Proof.
  assert (H1 : readers (Samples.world_of Samples.selected) !! 0
               = Some Samples.png) by (vm_compute; reflexivity).
  assert (H2 : step Samples.parse_sample (Samples.world_of Samples.selected)
                 (ReadDone 0 (Some Samples.photo_url))
               = Some (Samples.world_of Samples.upload))
    by (vm_compute; reflexivity).
  assert (H3 : Samples.photo_url = dataURL (file_type Samples.png) (Some "AAAA"))
    by reflexivity.
  split; [exact H1|]. split; [exact H2|]. split; [exact H3|].
  split; [reflexivity|]. split; [reflexivity|].
  exact (proj1 (proj2 (proj1 (upload_round_trip Samples.parse_sample
                                _ _ _ _ _ H1 H2)
                         "AAAA" H3 eq_refl eq_refl))).
Defined.

Lemma upload_failures_witness :
  step Samples.parse_sample (Samples.world_of Samples.selected)
    (ReadDone 0 None)
  = Some (Samples.world_of
            (Samples.selected ++ [ReadDone 0 None]))
  ∧ error (Samples.world_of (Samples.selected ++ [ReadDone 0 None]))
    = Some "Failed to read the image file.".
Proof.
  assert (H : step Samples.parse_sample (Samples.world_of Samples.selected)
                (ReadDone 0 None)
              = Some (Samples.world_of (Samples.selected ++ [ReadDone 0 None])))
    by (vm_compute; reflexivity).
  split; [exact H|].
  exact (proj1 (proj2 (upload_failures Samples.parse_sample _ _) 0 H)).
Defined.

(** ** Which voice *)

Lemma find_exists {A} (f : A → bool) (l : list A) (x0 : A) :
  In x0 l → f x0 = true → ∃ x, find f l = Some x ∧ f x = true.
Proof.
  intros Hin Hf. destruct (find f l) as [x|] eqn:Hx.
  - exists x. split; [done|]. by apply find_some in Hx as [_ ?].
  - pose proof (find_none _ _ Hx _ Hin). congruence.
Qed.

Lemma find_all_false {A} (f : A → bool) (l : list A) :
  (∀ x, In x l → f x = false) → find f l = None.
Proof.
  intros H. destruct (find f l) as [x|] eqn:Hx; [|done].
  apply find_some in Hx as [Hin Hf]. rewrite (H _ Hin) in Hf. done.
Qed.

Lemma filter_all_false {A} (f : A → bool) (l : list A) :
  (∀ x, In x l → f x = false) ↔ List.filter f l = [].
Proof.
  split.
  - intros H. destruct (List.filter f l) as [|x t] eqn:Hx; [done|].
    assert (Hin : In x (List.filter f l)) by (rewrite Hx; by left).
    apply filter_In in Hin as [Hin Hf]. rewrite (H _ Hin) in Hf. done.
  - intros H x Hin. destruct (f x) eqn:Hf; [|done].
    assert (Hx : In x (List.filter f l)) by (by apply filter_In).
    rewrite H in Hx. done.
Qed.

Lemma by_gender_unmatched (lv : list Voice) (g : Gender) :
  (∀ v, In v lv → gender_matches g v = false) → by_gender lv g = None.
Proof.
  intros H. apply filter_all_false in H. unfold by_gender.
  destruct g; by rewrite ?H.
Qed.

Lemma voice_for_Some (lv : list Voice) (g : Gender) :
  lv ≠ [] → ∃ v, voice_for lv g = Some v.
Proof.
  destruct lv as [|v1 lv1]; [done|]. intros _.
  unfold voice_for, select_voice, by_default, or_else.
  destruct (by_gender (v1 :: lv1) g) as [v|]; [eauto|].
  destruct (find v_default (v1 :: lv1)); [eauto|].
  destruct (find (λ v, negb (v_localService v)) (v1 :: lv1)); [eauto|].
  simpl. eauto.
Qed.

(** X4. When a voice of the language is installed, one is assigned.  Without
    a gender hint, or when no voice of the language passes the name test of
    the hint, the choice is: a default voice if there is one, else a remote
    voice if there is one, else the first voice of the language. *)
Theorem default_voice_order (lv : list Voice) (g : Gender) :
  lv ≠ [] →
  (∃ v, voice_for lv g = Some v)
  ∧ ((∀ v, In v lv → gender_matches g v = false) →
     voice_for lv g = voice_for lv neutral)
  ∧ (∀ v0, In v0 lv → v_default v0 = true →
       ∃ v, voice_for lv neutral = Some v ∧ v_default v = true)
  ∧ ((∀ v, In v lv → v_default v = false) →
     (∀ v0, In v0 lv → v_localService v0 = false →
        ∃ v, voice_for lv neutral = Some v ∧ v_localService v = false)
     ∧ ((∀ v, In v lv → v_localService v = true) →
        voice_for lv neutral = head lv)).
Proof.
  intros Hne. split; [by apply voice_for_Some|].
  destruct lv as [|v1 lv1]; [done|].
  unfold voice_for, select_voice. split; [|split].
  - intros H. by rewrite (by_gender_unmatched _ _ H).
  - intros v0 Hin Hd. simpl by_gender. unfold or_else at 1, by_default.
    destruct (find_exists v_default _ _ Hin Hd) as (v & -> & Hv). simpl. eauto.
  - intros Hnd. simpl by_gender. unfold or_else at 1, by_default.
    rewrite (find_all_false _ _ Hnd). unfold or_else at 1. split.
    + intros v0 Hin Hr.
      destruct (find_exists (λ v, negb (v_localService v)) _ _ Hin)
        as (v & -> & Hv); [by rewrite Hr|].
      simpl. exists v. split; [done|]. by apply negb_true_iff.
    + intros Hl. rewrite find_all_false; [done|].
      intros v Hin. by rewrite (Hl _ Hin).
Qed.

(** X5. With a gender hint, when some voice of the language passes the name
    test of the hint, the assigned voice passes it too; it is a remote voice
    whenever a remote voice passes, and otherwise the first voice that
    passes. *)
Theorem gender_voice_order (lv : list Voice) (g : Gender) (v0 : Voice) :
  g ≠ neutral → In v0 lv → gender_matches g v0 = true →
  (∃ v, voice_for lv g = Some v ∧ In v lv ∧ gender_matches g v = true)
  ∧ (v_localService v0 = false →
     ∃ v, voice_for lv g = Some v ∧ v_localService v = false)
  ∧ ((∀ v, In v lv → gender_matches g v = true → v_localService v = true) →
     voice_for lv g = head (List.filter (gender_matches g) lv)).
Proof.
  intros Hg Hin Hm.
  assert (Hf : In v0 (List.filter (gender_matches g) lv))
    by (by apply filter_In).
  assert (Hsel : voice_for lv g =
                 or_else (find (λ v, negb (v_localService v))
                            (List.filter (gender_matches g) lv))
                         (head (List.filter (gender_matches g) lv))
                 ∧ ∃ v, voice_for lv g = Some v).
  { unfold voice_for, select_voice. destruct lv as [|v1 lv1]; [done|].
    destruct (by_gender (v1 :: lv1) g) as [v|] eqn:Hv;
      [|by destruct (by_gender_None _ _ _ Hg Hin Hm)].
    split; [|simpl; eauto]. simpl or_else at 1. rewrite <- Hv.
    unfold by_gender. destruct g; [| |done].
    all: by destruct (List.filter _ (v1 :: lv1)). }
  destruct Hsel as [Hsel [v Hv]]. split; [|split].
  - exists v. split; [done|].
    split; [by eapply voice_for_In|].
    exact (voice_for_gender _ _ _ _ Hg Hin Hm Hv).
  - intros Hr. rewrite Hsel.
    destruct (find_exists (λ v, negb (v_localService v)) _ _ Hf)
      as (x & -> & Hx); [by rewrite Hr|].
    simpl. exists x. split; [done|]. by apply negb_true_iff.
  - intros Hl. rewrite Hsel, find_all_false; [done|].
    intros x Hx. apply filter_In in Hx as [Hx1 Hx2].
    by rewrite (Hl _ Hx1 Hx2).
Qed.

(** X17. The [speak] of the entry file, given a language tag: it cancels,
    then queues the text with a voice of the language; it leaves the voice
    to the browser exactly when [speak] of [App.tsx] does, namely when no
    installed voice passes the language test; and a voice whose language
    equals the tag is preferred to one that only shares the primary subtag. *)
Theorem entry_speak_voice (vs : list Voice) (text : JValue) (l : string) :
  ∃ u, Entry.speak vs text (JStr l) = ([synthCancel; synthSpeak u], Normal)
       ∧ u_text u = text ∧ u_lang u = JStr l
       ∧ (∀ v, u_voice u = Some v → In v vs ∧ lang_matches l v = true)
       ∧ (u_voice u = None ↔ List.filter (lang_matches l) vs = [])
       ∧ (∀ g, u_voice u = None ↔
               voice_for (List.filter (lang_matches l) vs) g = None)
       ∧ (∀ v0, In v0 vs → v_lang v0 = l →
                ∃ v, u_voice u = Some v ∧ v_lang v = l).
Proof.
  unfold Entry.speak, Entry.voice_of. fold (primary_of l).
  eexists. split; [done|]. simpl.
  set (exact := find (λ v, String.eqb (v_lang v) l) vs).
  set (close := find (λ v, Str.startsWith (v_lang v) (primary_of l)) vs).
  assert (Hvoice : ∀ v, or_else exact close = Some v →
                        In v vs ∧ lang_matches l v = true).
  { intros v H. apply or_else_some in H as [H|H];
      apply find_some in H as [Hin H]; (split; [done|]).
    - unfold lang_matches. by rewrite H.
    - by rewrite lang_matches_primary. }
  assert (Hnone : or_else exact close = None ↔
                  List.filter (lang_matches l) vs = []).
  { rewrite <- filter_all_false. split.
    - intros H v Hin. destruct exact eqn:He; [done|]. simpl in H.
      rewrite lang_matches_primary.
      by apply (find_none _ _ H).
    - intros H. destruct (or_else exact close) as [v|] eqn:Hv; [|done].
      destruct (Hvoice v eq_refl) as [Hin Hm]. rewrite (H _ Hin) in Hm.
      done. }
  split; [done|]. split; [done|]. split; [done|]. split; [done|]. split.
  - intros g. rewrite Hnone. split; [by intros ->|].
    intros H. destruct (List.filter (lang_matches l) vs) as [|x t] eqn:Hx;
      [done|].
    destruct (voice_for_Some (x :: t) g ltac:(done)) as [v Hv].
    congruence.
  - intros v0 Hin Hl.
    destruct (find_exists (λ v, String.eqb (v_lang v) l) _ _ Hin)
      as (v & Hv & He); [by apply String.eqb_eq|].
    exists v. subst exact. rewrite Hv. split; [done|].
    by apply String.eqb_eq.
Qed.

(** ** More of what every reachable state satisfies *)

Lemma dataURL_truthy (mime : string) (data : option string) :
  Str.truthy (dataURL mime data) = true.
Proof. reflexivity. Qed.

Lemma Consistent_init : Consistent init.
Proof. split; simpl; try done. all: intros; by destruct i. Qed.

Section MoreInvariants.

Variable JSON_parse : string -> option JValue.

Lemma resume_chat_frame (cp : string) (g : Gender) (vs : list Voice)
    (o : Outcome) (w : World) :
  let w' := exec_all (resume JSON_parse (AfterChat cp g vs) o) w in
  currentRole w' = currentRole w ∧ displayImage w' = displayImage w.
Proof.
  destruct w; unfold resume, after_chat, catch_parse, catch_all, speak; simpl;
    repeat case_match; simplify_eq; done.
Qed.

Lemma resume_transform_frame (cp : string) (o : Outcome) (w : World) :
  let w' := exec_all (resume JSON_parse (AfterTransform cp) o) w in
  (currentRole w' = currentRole w ∧ displayImage w' = displayImage w)
  ∨ (currentRole w' = Some cp
     ∧ ∃ url, displayImage w' = Some url ∧ Str.truthy url = true).
Proof.
  destruct w; unfold resume, after_transform, catch_all; simpl;
    repeat case_match; simplify_eq; simpl; eauto.
Qed.

Lemma Consistent_step (w w' : World) (ev : Event) :
  Inv w → Consistent w → step JSON_parse w ev = Some w' → Consistent w'.
Proof.
  intros HI [Hhid Hsho Hclr Hrole Hfl Hchat] Hstep.
  destruct ev; simpl in Hstep.
  - (* SelectFile *)
    destruct (upload_rendered w); [|done]. injection Hstep as <-.
    destruct file; [|by split]. destruct w; simpl in *. by split.
  - (* ReadDone *)
    destruct (readers w !! i) as [f|]; [|done]. simpl in Hstep.
    injection Hstep as <-.
    destruct result; destruct w; simpl in *; split; simpl; try done.
    intros _. eexists. split; [done|]. apply dataURL_truthy.
  - (* Typing *)
    destruct (form_rendered w && negb (controls_disabled w)) eqn:Hen; [|done].
    injection Hstep as <-. apply andb_true_iff in Hen as [_ Hidle].
    unfold controls_disabled in Hidle. apply negb_true_iff in Hidle.
    destruct w; simpl in *; split; simpl; try done. congruence.
  - (* Submit *)
    destruct (form_rendered w && negb (controls_disabled w)) eqn:Hen; [|done].
    injection Hstep as <-. apply andb_true_iff in Hen as [_ Hidle].
    unfold controls_disabled in Hidle. apply negb_true_iff in Hidle.
    destruct (guard_fails w) eqn:Hg.
    { rewrite (handleSubmit_blocked _ Hg).
      destruct w; simpl in *; split; simpl; try done. }
    pose proof Hg as Hg'. apply guard_passes_iff in Hg' as [_ [img Himg]].
    assert (Hold : ∀ new j x, sent w !! j = Some x →
                              (sent w ++ [new]) !! j = Some x)
      by (intros; by apply lookup_app_l_Some).
    destruct (no_role (currentRole w)) eqn:Hn.
    + rewrite (handleSubmit_transform _ _ Hg Himg Hn).
      destruct w; simpl in *; split; simpl; try done.
      * intros role Hr. destruct (Hrole _ Hr) as (j & img' & Hj). eauto.
      * intros req k Hin. apply in_app_iff in Hin as [Hin|[Hin|[]]].
        -- destruct (Hfl _ _ Hin) as [H1 H2]. split; [|done].
           apply in_app_iff. by left.
        -- injection Hin as <- <-. split; [apply in_app_iff; right; by left|].
           intros cp [= <-]. eauto.
      * intros i si c Hi. apply lookup_snoc_Some in Hi as [[_ Hi]|[_ Hi]];
          [|done].
        destruct (Hchat _ _ _ Hi) as (role & img' & j & ? & ? & Hj).
        exists role, img', j. eauto.
    + destruct (currentRole w) as [role|] eqn:Hr; [|done].
      rewrite (handleSubmit_chat _ _ Hg Hr); [|by rewrite Hr].
      destruct w; simpl in *; split; simpl; try done.
      * intros role' Hr'. rewrite Hr in Hr'.
        destruct (Hrole _ Hr') as (j & img' & Hj). eauto.
      * intros req k Hin. apply in_app_iff in Hin as [Hin|[Hin|[]]].
        -- destruct (Hfl _ _ Hin) as [H1 H2]. split; [|done].
           apply in_app_iff. by left.
        -- injection Hin as <- <-. split; [apply in_app_iff; right; by left|].
           done.
      * intros i si c Hi. apply lookup_snoc_Some in Hi as [[_ Hi]|[Hlen Hi]].
        -- destruct (Hchat _ _ _ Hi) as (role' & img' & j & ? & ? & Hj).
           exists role', img', j. eauto.
        -- injection Hi as <- <-.
           destruct (Hrole role eq_refl) as (j & img' & Hj).
           exists role, img', j. split; [|by eauto].
           rewrite Hlen. by eapply lookup_lt_Some.
  - (* Settled *)
    destruct (inflight w !! i) as [[req k]|] eqn:Hk; [|done].
    simpl in Hstep. injection Hstep as <-.
    destruct (inv_loading _ HI) as [[_ [rk Hin]]|[_ Hin]]; rewrite Hin in Hk;
      [|by destruct i].
    destruct i; [|by destruct i]. simpl in Hk. injection Hk as ->.
    assert (Hoi : originalImage w ≠ None).
    { intros Hnone. destruct (inv_fresh _ HI Hnone). congruence. }
    destruct (Hfl req k) as [Hsent Hk]; [rewrite Hin; by left|].
    set (w0 := with_inflight (delete 0 (inflight w)) w).
    assert (Hw0 : originalImage w0 = originalImage w
                  ∧ displayImage w0 = displayImage w
                  ∧ currentRole w0 = currentRole w ∧ sent w0 = sent w
                  ∧ inflight w0 = [])
      by (subst w0; rewrite Hin; by destruct w).
    destruct Hw0 as (Ho0 & Hd0 & Hc0 & Hs0 & Hf0).
    destruct (resume_frame JSON_parse k o w0)
      as (Ho & Hf & _ & Hs & _ & Hl & _ & _).
    rewrite Ho0 in Ho. rewrite Hs0 in Hs. rewrite Hf0 in Hf.
    assert (Hcases :
              (currentRole (exec_all (resume JSON_parse k o) w0) = currentRole w
               ∧ displayImage (exec_all (resume JSON_parse k o) w0)
                 = displayImage w)
              ∨ ((∃ img, req = ImageTransform img
                                 (transform_instruction (prompt_of k)))
                 ∧ currentRole (exec_all (resume JSON_parse k o) w0)
                   = Some (prompt_of k)
                 ∧ ∃ url, displayImage (exec_all (resume JSON_parse k o) w0)
                          = Some url ∧ Str.truthy url = true)).
    { destruct k as [cp|cp g vs].
      - destruct (resume_transform_frame cp o w0) as [[? ?]|[? ?]].
        + left. by rewrite <- Hc0, <- Hd0.
        + right. split; [by apply Hk | done].
      - destruct (resume_chat_frame cp g vs o w0) as [? ?].
        left. by rewrite <- Hc0, <- Hd0. }
    split.
    + rewrite Ho. intros Hnone. done.
    + intros _. destruct Hcases as [[_ ->]|(_ & _ & Hurl)]; [|done].
      by apply Hsho.
    + by rewrite Hl.
    + rewrite Hs. intros role Hr.
      destruct Hcases as [[Hc _]|([img ->] & Hc & _)].
      * apply Hrole. by rewrite <- Hc.
      * rewrite Hc in Hr. injection Hr as <-.
        apply list_elem_of_In, list_elem_of_lookup in Hsent as [j Hj]. eauto.
    + rewrite Hf. intros ? ? [].
    + by rewrite Hs.
  - (* ChangeRole *)
    destruct (change_role_rendered w); [|done]. injection Hstep as <-.
    unfold handleRoleReset.
    destruct w as [[img|] ? ? ? ? ? ? ? ? ? ?]; simpl in *;
      split; simpl; try done.
    intros _. eexists. split; [done|]. apply dataURL_truthy.
  - (* VoicesChanged *)
    injection Hstep as <-. destruct w; simpl in *. by split.
  - (* UtteranceEnd *)
    injection Hstep as <-. destruct w; simpl in *. by split.
Qed.

Lemma Inv_Consistent_run (evs : list Event) (w w' : World) :
  Inv w → Consistent w → run JSON_parse evs w = Some w' → Consistent w'.
Proof.
  revert w. induction evs as [|ev evs IH]; intros w HI HC Hrun;
    simpl in Hrun.
  - by simplify_eq.
  - destruct (step JSON_parse w ev) as [w1|] eqn:Hs; [|done].
    simpl in Hrun. eapply (IH w1); [|by eapply Consistent_step|done].
    by eapply Inv_step.
Qed.

Lemma Consistent_reachable (evs : list Event) (w : World) :
  run JSON_parse evs init = Some w → Consistent w.
Proof.
  intros H. eapply Inv_Consistent_run; [apply Inv_init|apply Consistent_init|done].
Qed.

End MoreInvariants.

(** ** The render and the handlers *)

(** X9. What the submit button says is what a submission does.  While a
    request is in flight the button reads "Thinking..." and is disabled, as
    is the input, and "Change Role" is not offered.  Otherwise a submission
    that passes the guard issues the image transform when the button reads
    "Transform" and the chat turn for the role named in the placeholder when
    it reads "Ask". *)
Theorem button_tells_request (w : World) (fv : FormView) :
  form (render w) = Some fv →
  (isLoading w = true →
   button_label fv = "Thinking..." ∧ button_disabled fv = true
   ∧ input_disabled fv = true ∧ change_role_button fv = false)
  ∧ (isLoading w = false → guard_fails w = false →
     (button_label fv = "Transform"
      ∧ ∃ img, requests_of (handleSubmit w) =
               [ImageTransform img (transform_instruction (prompt w))])
     ∨ (button_label fv = "Ask"
        ∧ ∃ role, placeholder fv = "Ask the " +:+ role +:+ "..."
                  ∧ requests_of (handleSubmit w) =
                    [ChatTurn (chat_instruction role) (prompt w)])).
Proof.
  unfold render. simpl. destruct (originalImage w) as [img|] eqn:Himg; [|done].
  intros [= <-]. simpl. split.
  - intros ->. by rewrite andb_false_r.
  - intros -> Hg. destruct (no_role (currentRole w)) eqn:Hn; simpl.
    + left. split; [done|]. exists img.
      by rewrite (handleSubmit_transform _ _ Hg Himg Hn).
    + right. split; [done|].
      destruct (currentRole w) as [role|] eqn:Hr; [|done]. exists role.
      split; [done|]. rewrite (handleSubmit_chat _ _ Hg Hr); [done|].
      by rewrite Hr.
Qed.

Section Offered.

Variable JSON_parse : string -> option JValue.

(** X10. In every reachable state an avatar image is displayed exactly when
    an image is stored: the hint "Upload a photo to begin" and the "Upload
    Photo" button come and go together. *)
Theorem avatar_shown_iff_stored (evs : list Event) (w : World) :
  run JSON_parse evs init = Some w →
  (avatar (render w) = None ↔ form (render w) = None)
  ∧ (avatar (render w) = displayImage w).
Proof.
  intros Hrun. pose proof (Consistent_reachable JSON_parse _ _ Hrun) as HC.
  unfold render; simpl. destruct (originalImage w) eqn:Hoi.
  - destruct (con_shown _ HC) as (url & Hurl & Ht); [by rewrite Hoi|].
    rewrite Hurl. simpl. rewrite Ht. split; [split; done | done].
  - by rewrite (con_hidden _ HC Hoi).
Qed.

(** X11. In every reachable state with a request in flight the form is shown
    with an empty, disabled text input and the button "Thinking...". *)
Theorem loading_view (evs : list Event) (w : World) :
  run JSON_parse evs init = Some w → loader (render w) = true →
  ∃ fv, form (render w) = Some fv
        ∧ input_value fv = "" ∧ input_disabled fv = true
        ∧ button_label fv = "Thinking..." ∧ button_disabled fv = true.
Proof.
  intros Hrun Hl.
  pose proof (Consistent_reachable JSON_parse _ _ Hrun) as HC.
  assert (HI : Inv w) by (apply (Inv_reachable JSON_parse); by exists evs).
  unfold render in *; simpl in *.
  destruct (originalImage w) eqn:Hoi.
  - eexists. split; [done|]. simpl. rewrite Hl.
    by rewrite (con_cleared _ HC Hl).
  - destruct (inv_fresh _ HI Hoi) as [_ Hfl].
    destruct (inv_loading _ HI) as [[_ [rk Hrk]]|[? _]]; congruence.
Qed.

(** X12. In every reachable state the first request ever sent is an image
    transform, and every chat turn sent was preceded by the image transform
    that asked for its role. *)
Theorem chat_follows_transform (evs : list Event) (w : World) :
  run JSON_parse evs init = Some w →
  (∀ req, sent w !! 0 = Some req →
          ∃ img instr, req = ImageTransform img instr)
  ∧ (∀ i si c, sent w !! i = Some (ChatTurn si c) →
       ∃ role img j,
         j < i ∧ si = chat_instruction role
         ∧ sent w !! j = Some (ImageTransform img (transform_instruction role))).
Proof.
  intros Hrun. pose proof (Consistent_reachable JSON_parse _ _ Hrun) as HC.
  split; [|apply (con_chat _ HC)].
  intros [img instr|si c] H0; [eauto|].
  destruct (con_chat _ HC _ _ _ H0) as (? & ? & j & Hj & _). lia.
Qed.

End Offered.

(** ** Sequences of submissions *)

Lemma handleSubmit_issue (w : World) :
  guard_fails w = false →
  ∃ req k, handleSubmit w =
           [setIsLoading true; setError None; setPrompt "";
            generateContent req k]
           ∧ prompt_of k = prompt w.
Proof.
  intros Hg. pose proof Hg as Hg'.
  apply guard_passes_iff in Hg' as [_ [img Himg]].
  destruct (no_role (currentRole w)) eqn:Hn.
  - rewrite (handleSubmit_transform _ _ Hg Himg Hn). eauto.
  - destruct (currentRole w) as [role|] eqn:Hr; [|done].
    rewrite (handleSubmit_chat _ _ Hg Hr); [eauto | by rewrite Hr].
Qed.

Lemma handleSubmit_ext (w1 w2 : World) :
  prompt w1 = prompt w2 → originalImage w1 = originalImage w2 →
  currentRole w1 = currentRole w2 → voices w1 = voices w2 →
  handleSubmit w1 = handleSubmit w2.
Proof.
  unfold handleSubmit, guard_fails. by intros -> -> -> ->.
Qed.

Section Sequences.

Variable JSON_parse : string -> option JValue.

Lemma step_sent (w w' : World) (ev : Event) :
  step JSON_parse w ev = Some w' →
  ∃ new, sent w' = sent w ++ new
         ∧ ∀ img instr, In (ImageTransform img instr) new →
                        originalImage w = Some img.
Proof.
  intros Hstep.
  assert (Hsame : sent w' = sent w →
                  ∃ new, sent w' = sent w ++ new
                         ∧ ∀ img instr, In (ImageTransform img instr) new →
                                        originalImage w = Some img).
  { intros ->. exists []. by rewrite app_nil_r. }
  destruct ev; simpl in Hstep.
  - destruct (upload_rendered w); [|done]. injection Hstep as <-.
    apply Hsame. destruct file; by destruct w.
  - destruct (readers w !! i); [|done]. simpl in Hstep. injection Hstep as <-.
    apply Hsame. destruct result; by destruct w.
  - destruct (_ && _); [|done]. injection Hstep as <-. apply Hsame.
    by destruct w.
  - destruct (_ && _); [|done]. injection Hstep as <-.
    destruct (guard_fails w) eqn:Hg.
    { apply Hsame. rewrite (handleSubmit_blocked _ Hg). by destruct w. }
    pose proof Hg as Hg'. apply guard_passes_iff in Hg' as [_ [img Himg]].
    destruct (no_role (currentRole w)) eqn:Hn.
    + rewrite (handleSubmit_transform _ _ Hg Himg Hn). eexists.
      split; [by destruct w|]. intros img' instr [[= <- _]|[]]. done.
    + destruct (currentRole w) as [role|] eqn:Hr; [|done].
      rewrite (handleSubmit_chat _ _ Hg Hr); [|by rewrite Hr]. eexists.
      split; [by destruct w|]. intros img' instr [?|[]]. done.
  - destruct (inflight w !! i) as [[req k]|]; [|done]. simpl in Hstep.
    injection Hstep as <-. apply Hsame.
    destruct (resume_frame JSON_parse k o
                (with_inflight (delete i (inflight w)) w))
      as (_ & _ & _ & -> & _).
    by destruct w.
  - destruct (change_role_rendered w); [|done]. injection Hstep as <-.
    apply Hsame. unfold handleRoleReset.
    by destruct w as [[img|] ? ? ? ? ? ? ? ? ? ?].
  - injection Hstep as <-. apply Hsame. by destruct w.
  - injection Hstep as <-. apply Hsame. by destruct w.
Qed.

(** X13. As long as no further read completes, every image transform that is
    requested carries the stored upload: a new role after "Change Role" is
    computed from the photo, not from the previous avatar. *)
Theorem transforms_use_upload (evs : list Event) (w w' : World) :
  run JSON_parse evs w = Some w' →
  forallb (λ ev, negb (is_read_done ev)) evs = true →
  ∃ new, sent w' = sent w ++ new
         ∧ ∀ img instr, In (ImageTransform img instr) new →
                        originalImage w = Some img.
Proof.
  revert w. induction evs as [|ev evs IH]; intros w Hrun Hevs; simpl in *.
  - injection Hrun as <-. exists []. by rewrite app_nil_r.
  - apply andb_true_iff in Hevs as [Hev Hevs]. apply negb_true_iff in Hev.
    destruct (step JSON_parse w ev) as [w1|] eqn:Hs; [|done]. simpl in Hrun.
    destruct (step_sent _ _ _ Hs) as (new1 & Hs1 & H1).
    destruct (IH _ Hrun Hevs) as (new2 & Hs2 & H2).
    exists (new1 ++ new2). split; [by rewrite Hs2, Hs1, app_assoc|].
    intros img instr Hin. apply in_app_iff in Hin as [Hin|Hin]; [eauto|].
    rewrite <- (step_original_image JSON_parse _ _ _ Hs Hev). eauto.
Qed.

(** X14. After a request was rejected the submitted input is back in the
    text field with the error message, and submitting once more sends the
    same request again. *)
Theorem retry_resends (evs : list Event) (w w1 w2 w3 : World) :
  run JSON_parse evs init = Some w → guard_fails w = false →
  step JSON_parse w Submit = Some w1 →
  step JSON_parse w1 (Settled 0 Rejected) = Some w2 →
  step JSON_parse w2 Submit = Some w3 →
  error w2 = Some generic_error ∧ prompt w2 = prompt w
  ∧ ∃ req, sent w1 = sent w ++ [req] ∧ sent w3 = sent w ++ [req; req].
Proof.
  intros Hrun Hg H1 H2 H3.
  assert (HI : Inv w) by (apply (Inv_reachable JSON_parse); by exists evs).
  unfold step in H1.
  destruct (form_rendered w && negb (controls_disabled w)) eqn:Hen; [|done].
  injection H1 as <-. apply andb_true_iff in Hen as [_ Hidle].
  unfold controls_disabled in Hidle. apply negb_true_iff in Hidle.
  destruct (inv_loading _ HI) as [[? _]|[_ Hfl]]; [congruence|].
  destruct (handleSubmit_issue _ Hg) as (req & k & Hsub & Hk).
  rewrite Hsub in H2.
  assert (Hw2 : w2 = exec_all (catch_all (prompt w) ++ [setIsLoading false])
                       (with_inflight []
                          (exec_all [setIsLoading true; setError None;
                                     setPrompt ""; generateContent req k] w))).
  { destruct w; simpl in *. subst. simpl in H2. injection H2 as <-.
    unfold resume. destruct k; simpl in *; by subst. }
  clear H2.
  assert (Hsame : handleSubmit w2 = handleSubmit w).
  { apply handleSubmit_ext; subst w2; by destruct w. }
  unfold step in H3. destruct (_ && _) in H3; [|done]. injection H3 as <-.
  rewrite Hsame, Hsub.
  split; [subst w2; by destruct w|]. split; [subst w2; by destruct w|].
  exists req. split; [by destruct w|].
  subst w2. destruct w; simpl. by rewrite <- app_assoc.
Qed.

(** X15. A change of the installed voices while a request is in flight
    commutes with the arrival of the response: the reply is spoken with the
    voices that were installed when the question was submitted. *)
Theorem voices_change_commutes (w : World) (vs : list Voice) (i : nat)
    (o : Outcome) :
  run JSON_parse [VoicesChanged vs; Settled i o] w
  = run JSON_parse [Settled i o; VoicesChanged vs] w
  ∧ synth <$> run JSON_parse [VoicesChanged vs; Settled i o] w
    = synth <$> step JSON_parse w (Settled i o).
Proof.
  simpl.
  replace (inflight (exec w (setVoices vs))) with (inflight w)
    by (by destruct w).
  destruct (inflight w !! i) as [[req k]|]; simpl; [|done].
  assert (H : exec_all (resume JSON_parse k o)
                (with_inflight (delete i (inflight w)) (exec w (setVoices vs)))
              = exec (exec_all (resume JSON_parse k o)
                        (with_inflight (delete i (inflight w)) w))
                     (setVoices vs)).
  { destruct w, k; unfold resume, after_transform, after_chat, catch_parse,
      catch_all, speak; simpl; repeat case_match; simplify_eq; reflexivity. }
  rewrite H. split; [done|]. f_equal.
  generalize (exec_all (resume JSON_parse k o)
                (with_inflight (delete i (inflight w)) w)).
  by intros [].
Qed.

(** X18. However a request settles, the loading flag is cleared and exactly
    one of three things has happened: an error message is set and the
    submitted input is back in the text field; or (image transform) the role
    is set and a new image is displayed; or (chat turn) one utterance is
    queued.  In the last two cases the message and the text field are left
    alone. *)
Theorem settled_outcomes (k : Continuation) (o : Outcome) (w : World) :
  let w' := exec_all (resume JSON_parse k o) w in
  isLoading w' = false
  ∧ ((∃ msg, error w' = Some msg ∧ Str.truthy msg = true
             ∧ prompt w' = prompt_of k
             ∧ currentRole w' = currentRole w
             ∧ displayImage w' = displayImage w
             ∧ (synth w' = synth w ∨ synth w' = []))
     ∨ (∃ cp url, k = AfterTransform cp
                  ∧ currentRole w' = Some cp ∧ displayImage w' = Some url
                  ∧ error w' = error w ∧ prompt w' = prompt w
                  ∧ synth w' = synth w)
     ∨ (∃ cp g vs u, k = AfterChat cp g vs
                     ∧ synth w' = [u]
                     ∧ error w' = error w ∧ prompt w' = prompt w
                     ∧ currentRole w' = currentRole w
                     ∧ displayImage w' = displayImage w)).
Proof.
  destruct w, k; unfold resume, after_transform, after_chat, catch_parse,
    catch_all, speak; simpl; repeat case_match; simplify_eq; simpl;
    (split; [reflexivity|]).
  all: first
    [ left; eexists; repeat (split; [reflexivity|]); by auto
    | right; left; do 2 eexists; repeat (split; [reflexivity|]); reflexivity
    | right; right; do 4 eexists; repeat (split; [reflexivity|]);
      reflexivity ].
Qed.

End Sequences.

(** ** The proxy and the tables *)




(** X2. The two tables agree: when the proxy sends a voice name other than
    "default_voice" for a role, the component derives a gender for that
    role, and it is the gender that the voice name starts with. *)
Theorem voice_agrees_with_gender (r id : string) :
  Proxy.voiceId_of (JStr r) = Some (Proxy.VoiceName id) →
  id ≠ "default_voice" →
  gender_of_role r ≠ neutral
  ∧ Str.startsWith id (gender_word (gender_of_role r) +:+ "_") = true.
Proof.
  unfold Proxy.voiceId_of, Proxy.voice_or_default, gender_of_role.
  intros Hid Hne.
  destruct (roleVoices !! Str.toLowerCase r) as [id'|] eqn:Hk.
  - apply roleVoices_entries in Hk.
    repeat (destruct Hk as [[= <- <-]|Hk];
            [injection Hid as <-; by vm_compute|]).
    done.
  - destruct (Proxy.inherited _); [done|]. injection Hid as <-. done.
Qed.


Lemma voice_agrees_with_gender_witness :
  Proxy.voiceId_of (JStr "Teacher")
  = Some (Proxy.VoiceName "female_teacher")
  ∧ "female_teacher" ≠ "default_voice"
  ∧ gender_of_role "Teacher" ≠ neutral.
Proof.
  assert (H1 : Proxy.voiceId_of (JStr "Teacher")
               = Some (Proxy.VoiceName "female_teacher"))
    by (vm_compute; reflexivity).
  assert (H2 : "female_teacher" ≠ "default_voice") by discriminate.
  split; [exact H1|]. split; [exact H2|].
  exact (proj1 (voice_agrees_with_gender "Teacher" "female_teacher" H1 H2)).
Defined.

(** ** Instances *)

Lemma default_voice_order_witness :
  Samples.chrome_voices ≠ []
  ∧ (∀ v, In v Samples.chrome_voices → v_default v = false)
  ∧ In Samples.uk_female Samples.chrome_voices
  ∧ v_localService Samples.uk_female = false
  ∧ ∃ v, voice_for Samples.chrome_voices neutral = Some v
         ∧ v_localService v = false.
Proof.
  assert (H1 : Samples.chrome_voices ≠ []) by discriminate.
  assert (H2 : ∀ v, In v Samples.chrome_voices → v_default v = false)
    by (intros v [<-|[<-|[]]]; reflexivity).
  assert (H3 : In Samples.uk_female Samples.chrome_voices) by (by left).
  split; [exact H1|]. split; [exact H2|]. split; [exact H3|].
  split; [reflexivity|].
  exact (proj1 (proj2 (proj2 (proj2
           (default_voice_order Samples.chrome_voices neutral H1))) H2)
           Samples.uk_female H3 eq_refl).
Defined.

Lemma gender_voice_order_witness :
  female ≠ neutral
  ∧ In Samples.uk_female [Samples.uk_male; Samples.uk_female]
  ∧ gender_matches female Samples.uk_female = true
  ∧ ∃ v, voice_for [Samples.uk_male; Samples.uk_female] female = Some v
         ∧ In v [Samples.uk_male; Samples.uk_female]
         ∧ gender_matches female v = true.
Proof.
  assert (H1 : female ≠ neutral) by discriminate.
  assert (H2 : In Samples.uk_female [Samples.uk_male; Samples.uk_female])
    by (right; by left).
  assert (H3 : gender_matches female Samples.uk_female = true)
    by reflexivity.
  split; [exact H1|]. split; [exact H2|]. split; [exact H3|].
  exact (proj1 (gender_voice_order [Samples.uk_male; Samples.uk_female]
                  female Samples.uk_female H1 H2 H3)).
Defined.

Lemma entry_speak_voice_witness :
  ∃ u, Entry.speak [Samples.uk_male; Samples.uk_female] (JStr "Hello")
         (JStr "en-GB")
       = ([synthCancel; synthSpeak u], Normal)
       ∧ In Samples.uk_female [Samples.uk_male; Samples.uk_female]
       ∧ v_lang Samples.uk_female = "en-GB"
       ∧ ∃ v, u_voice u = Some v ∧ v_lang v = "en-GB".
Proof.
  destruct (entry_speak_voice [Samples.uk_male; Samples.uk_female]
              (JStr "Hello") "en-GB") as (u & Hu & _ & _ & _ & _ & _ & Hex).
  exists u. split; [exact Hu|].
  assert (H : In Samples.uk_female [Samples.uk_male; Samples.uk_female])
    by (right; by left).
  split; [exact H|]. split; [reflexivity|].
  exact (Hex Samples.uk_female H eq_refl).
Defined.

Lemma button_tells_request_witness :
  ∃ fv, form (render (Samples.world_of Samples.question)) = Some fv
        ∧ isLoading (Samples.world_of Samples.question) = false
        ∧ guard_fails (Samples.world_of Samples.question) = false
        ∧ button_label fv = "Ask"
        ∧ requests_of (handleSubmit (Samples.world_of Samples.question)) ≠ [].
Proof.
  eexists.
  assert (H1 : form (render (Samples.world_of Samples.question))
               = Some {| input_value := "Who are you?";
                         placeholder := "Ask the king...";
                         aria_label := "Ask the king";
                         input_disabled := false;
                         button_label := "Ask";
                         button_disabled := false;
                         change_role_button := true |})
    by (vm_compute; reflexivity).
  assert (H2 : isLoading (Samples.world_of Samples.question) = false)
    by (vm_compute; reflexivity).
  assert (H3 : guard_fails (Samples.world_of Samples.question) = false)
    by (vm_compute; reflexivity).
  split; [exact H1|]. split; [exact H2|]. split; [exact H3|].
  split; [reflexivity|].
  destruct (proj2 (button_tells_request _ _ H1) H2 H3)
    as [[_ [img ->]]|[_ (role & _ & ->)]]; discriminate.
Defined.

Lemma avatar_shown_iff_stored_witness :
  run Samples.parse_sample Samples.upload init
  = Some (Samples.world_of Samples.upload)
  ∧ avatar (render (Samples.world_of Samples.upload))
    = displayImage (Samples.world_of Samples.upload).
Proof.
  assert (H : run Samples.parse_sample Samples.upload init
              = Some (Samples.world_of Samples.upload))
    by (vm_compute; reflexivity).
  split; [exact H|].
  exact (proj2 (avatar_shown_iff_stored Samples.parse_sample _ _ H)).
Defined.

Lemma loading_view_witness :
  run Samples.parse_sample Samples.asked init
  = Some (Samples.world_of Samples.asked)
  ∧ loader (render (Samples.world_of Samples.asked)) = true
  ∧ ∃ fv, form (render (Samples.world_of Samples.asked)) = Some fv
          ∧ input_value fv = "" ∧ input_disabled fv = true
          ∧ button_label fv = "Thinking..." ∧ button_disabled fv = true.
Proof.
  assert (H1 : run Samples.parse_sample Samples.asked init
               = Some (Samples.world_of Samples.asked))
    by (vm_compute; reflexivity).
  assert (H2 : loader (render (Samples.world_of Samples.asked)) = true)
    by (vm_compute; reflexivity).
  split; [exact H1|]. split; [exact H2|].
  exact (loading_view Samples.parse_sample _ _ H1 H2).
Defined.

Lemma chat_follows_transform_witness :
  run Samples.parse_sample Samples.asked init
  = Some (Samples.world_of Samples.asked)
  ∧ sent (Samples.world_of Samples.asked) !! 1
    = Some (ChatTurn (chat_instruction "king") "Who are you?")
  ∧ ∃ role img j,
      j < 1 ∧ chat_instruction "king" = chat_instruction role
      ∧ sent (Samples.world_of Samples.asked) !! j
        = Some (ImageTransform img (transform_instruction role)).
Proof.
  assert (H1 : run Samples.parse_sample Samples.asked init
               = Some (Samples.world_of Samples.asked))
    by (vm_compute; reflexivity).
  assert (H2 : sent (Samples.world_of Samples.asked) !! 1
               = Some (ChatTurn (chat_instruction "king") "Who are you?"))
    by (vm_compute; reflexivity).
  split; [exact H1|]. split; [exact H2|].
  exact (proj2 (chat_follows_transform Samples.parse_sample _ _ H1) _ _ _ H2).
Defined.

Lemma transforms_use_upload_witness :
  run Samples.parse_sample
    (Samples.role_play ++ [ChangeRole; Typing "queen"; Submit])
    (Samples.world_of Samples.upload)
  = Some (Samples.world_of
            (Samples.become_king ++ [ChangeRole; Typing "queen"; Submit]))
  ∧ forallb (λ ev, negb (is_read_done ev))
      (Samples.role_play ++ [ChangeRole; Typing "queen"; Submit]) = true
  ∧ ∃ new,
      sent (Samples.world_of
              (Samples.become_king ++ [ChangeRole; Typing "queen"; Submit]))
      = sent (Samples.world_of Samples.upload) ++ new
      ∧ ∀ img instr, In (ImageTransform img instr) new →
          originalImage (Samples.world_of Samples.upload) = Some img.
Proof.
  assert (H1 : run Samples.parse_sample
                 (Samples.role_play ++ [ChangeRole; Typing "queen"; Submit])
                 (Samples.world_of Samples.upload)
               = Some (Samples.world_of
                         (Samples.become_king
                          ++ [ChangeRole; Typing "queen"; Submit])))
    by (vm_compute; reflexivity).
  assert (H2 : forallb (λ ev, negb (is_read_done ev))
                 (Samples.role_play ++ [ChangeRole; Typing "queen"; Submit])
               = true) by reflexivity.
  split; [exact H1|]. split; [exact H2|].
  exact (transforms_use_upload Samples.parse_sample _ _ _ H1 H2).
Defined.

Lemma retry_resends_witness :
  run Samples.parse_sample Samples.question init
  = Some (Samples.world_of Samples.question)
  ∧ guard_fails (Samples.world_of Samples.question) = false
  ∧ step Samples.parse_sample (Samples.world_of Samples.question) Submit
    = Some (Samples.world_of Samples.asked)
  ∧ step Samples.parse_sample (Samples.world_of Samples.asked)
      (Settled 0 Rejected)
    = Some (Samples.world_of (Samples.asked ++ [Settled 0 Rejected]))
  ∧ step Samples.parse_sample
      (Samples.world_of (Samples.asked ++ [Settled 0 Rejected])) Submit
    = Some (Samples.world_of (Samples.asked ++ [Settled 0 Rejected; Submit]))
  ∧ prompt (Samples.world_of (Samples.asked ++ [Settled 0 Rejected]))
    = prompt (Samples.world_of Samples.question).
Proof.
  assert (H1 : run Samples.parse_sample Samples.question init
               = Some (Samples.world_of Samples.question))
    by (vm_compute; reflexivity).
  assert (H2 : guard_fails (Samples.world_of Samples.question) = false)
    by (vm_compute; reflexivity).
  assert (H3 : step Samples.parse_sample (Samples.world_of Samples.question)
                 Submit
               = Some (Samples.world_of Samples.asked))
    by (vm_compute; reflexivity).
  assert (H4 : step Samples.parse_sample (Samples.world_of Samples.asked)
                 (Settled 0 Rejected)
               = Some (Samples.world_of
                         (Samples.asked ++ [Settled 0 Rejected])))
    by (vm_compute; reflexivity).
  assert (H5 : step Samples.parse_sample
                 (Samples.world_of (Samples.asked ++ [Settled 0 Rejected]))
                 Submit
               = Some (Samples.world_of
                         (Samples.asked ++ [Settled 0 Rejected; Submit])))
    by (vm_compute; reflexivity).
  split; [exact H1|]. split; [exact H2|]. split; [exact H3|].
  split; [exact H4|]. split; [exact H5|].
  exact (proj1 (proj2 (retry_resends Samples.parse_sample
                         _ _ _ _ _ H1 H2 H3 H4 H5))).
Defined.
